(** * Bitbucket repository adapter: a shallow embedding of [BitbucketService]

    The service is a TypeScript class built on three things that live
    outside the file: the [fetch] network primitive, the [js-base64] codec
    and the [parse-bitbucket-url] parser.  The network is modelled as an
    oracle that answers each issued request, the codec by the RFC 4648
    algorithm on byte strings, and the parser is a parameter of the
    constructor, taken to hand back a record of strings.  Asynchronous
    methods become computations in a small monad that records every
    request issued and either resolves with a value or rejects with the
    thrown object. *)

From Stdlib Require Import String Ascii List Bool ZArith NArith Lia DecimalString.
Import ListNotations.
Local Open Scope string_scope.
Set Warnings "-register-all".

(** ** String primitives used by the service *)

(** [s.replace(/^\//, '')]: drop one leading slash. *)
Definition strip_leading_slash (s : string) : string :=
  match s with
  | String "/"%char rest => rest
  | _ => s
  end.

(** [s.replace(/\/$/, '')]: drop one trailing slash. *)
Fixpoint strip_trailing_slash (s : string) : string :=
  match s with
  | EmptyString => EmptyString
  | String c EmptyString => if Ascii.eqb c "/"%char then EmptyString else s
  | String c rest => String c (strip_trailing_slash rest)
  end.

(** Truthiness of a JavaScript string: only the empty string is falsy. *)
Definition str_truthy (s : string) : bool :=
  match s with
  | EmptyString => false
  | _ => true
  end.

(** ** The base64 codec

    Strings are sequences of bytes (the UTF-8 form of the JavaScript
    string), so [Base64.encode] of the library reduces to the RFC 4648
    transformation of those bytes.  [Base64.decode] hands back a
    JavaScript string: the library reads the decoded bytes as UTF-8, and
    every ill-formed sequence in them becomes U+FFFD; in UTF-8 form that
    is the decoded bytes with each such sequence replaced by [EF BF BD].
    The decoder accepts the URL-safe letters as well and skips every
    character outside the alphabet, padding included. *)
Module Base64.

Definition alphabet : string :=
  "ABCDEFGHIJKLMNOPQRSTUVWXYZabcdefghijklmnopqrstuvwxyz0123456789+/".

Definition digit (n : N) : ascii :=
  match String.get (N.to_nat n) alphabet with
  | Some c => c
  | None => "="%char
  end.

Definition emit (n : N) (rest : string) : string := String (digit n) rest.

Fixpoint encode_bytes (l : list N) : string :=
  match l with
  | [] => ""
  | [a] =>
      let u := (a * 65536)%N in
      emit (u / 262144) (emit ((u / 4096) mod 64) "==")
  | [a; b] =>
      let u := (a * 65536 + b * 256)%N in
      emit (u / 262144) (emit ((u / 4096) mod 64) (emit ((u / 64) mod 64) "="))
  | a :: b :: c :: rest =>
      let u := (a * 65536 + b * 256 + c)%N in
      emit (u / 262144)
        (emit ((u / 4096) mod 64)
           (emit ((u / 64) mod 64) (emit (u mod 64) (encode_bytes rest))))
  end.

Definition bytes_of (s : string) : list N :=
  map N_of_ascii (list_ascii_of_string s).

Definition encode (s : string) : string := encode_bytes (bytes_of s).

Definition sextet (c : ascii) : option N :=
  let n := N_of_ascii c in
  if ((65 <=? n) && (n <=? 90))%N then Some (n - 65)%N
  else if ((97 <=? n) && (n <=? 122))%N then Some (n - 71)%N
  else if ((48 <=? n) && (n <=? 57))%N then Some (n + 4)%N
  else if ((n =? 43) || (n =? 45))%N then Some 62%N
  else if ((n =? 47) || (n =? 95))%N then Some 63%N
  else None.

Fixpoint sextets (s : string) : list N :=
  match s with
  | EmptyString => []
  | String c rest =>
      match sextet c with
      | Some n => n :: sextets rest
      | None => sextets rest
      end
  end.

Definition byte (n : N) : ascii := ascii_of_N (n mod 256).

Fixpoint decode_sextets (l : list N) : string :=
  match l with
  | a :: b :: c :: d :: rest =>
      let u := (a * 262144 + b * 4096 + c * 64 + d)%N in
      String (byte (u / 65536))
        (String (byte (u / 256)) (String (byte u) (decode_sextets rest)))
  | [a; b; c] =>
      let u := (a * 262144 + b * 4096 + c * 64)%N in
      String (byte (u / 65536)) (String (byte (u / 256)) "")
  | [a; b] =>
      let u := (a * 262144 + b * 4096)%N in
      String (byte (u / 65536)) ""
  | _ => ""
  end.

(** U+FFFD in UTF-8. *)
Definition replacement : list N := [239%N; 191%N; 189%N].

Definition within (lo hi b : N) : bool := ((lo <=? b) && (b <=? hi))%N.

(** The range of the byte that may follow the lead byte [b0] of a three or
    four byte sequence (no overlong forms, no surrogates, nothing above
    U+10FFFF). *)
Definition second_range (b0 : N) : N * N :=
  if (b0 =? 224)%N then (160%N, 191%N)
  else if (b0 =? 237)%N then (128%N, 159%N)
  else if (b0 =? 240)%N then (144%N, 191%N)
  else if (b0 =? 244)%N then (128%N, 143%N)
  else (128%N, 191%N).

(** Reading bytes as UTF-8 and writing the string back as UTF-8: a
    well-formed sequence is kept, an ill-formed one gives one U+FFFD and
    reading resumes at the byte that broke it. *)
Fixpoint utf8_replace (l : list N) : list N :=
  match l with
  | [] => []
  | b0 :: rest =>
      if (b0 <? 128)%N then b0 :: utf8_replace rest
      else if within 194 223 b0 then
        match rest with
        | b1 :: r1 =>
            if within 128 191 b1 then b0 :: b1 :: utf8_replace r1
            else (replacement ++ utf8_replace rest)%list
        | [] => replacement
        end
      else if within 224 239 b0 then
        match rest with
        | b1 :: r1 =>
            if within (fst (second_range b0)) (snd (second_range b0)) b1 then
              match r1 with
              | b2 :: r2 =>
                  if within 128 191 b2 then b0 :: b1 :: b2 :: utf8_replace r2
                  else (replacement ++ utf8_replace r1)%list
              | [] => replacement
              end
            else (replacement ++ utf8_replace rest)%list
        | [] => replacement
        end
      else if within 240 244 b0 then
        match rest with
        | b1 :: r1 =>
            if within (fst (second_range b0)) (snd (second_range b0)) b1 then
              match r1 with
              | b2 :: r2 =>
                  if within 128 191 b2 then
                    match r2 with
                    | b3 :: r3 =>
                        if within 128 191 b3 then b0 :: b1 :: b2 :: b3 :: utf8_replace r3
                        else (replacement ++ utf8_replace r2)%list
                    | [] => replacement
                    end
                  else (replacement ++ utf8_replace r1)%list
              | [] => replacement
              end
            else (replacement ++ utf8_replace rest)%list
        | [] => replacement
        end
      else (replacement ++ utf8_replace rest)%list
  end.

Definition of_bytes (l : list N) : string := string_of_list_ascii (map ascii_of_N l).

Definition decode (s : string) : string :=
  of_bytes (utf8_replace (bytes_of (decode_sextets (sextets s)))).

End Base64.

(** ** JavaScript values

    Parsed JSON bodies, plain-text bodies and the results handed back to the
    caller are JavaScript values.  Numbers are kept to the integers: the
    service only compares them.  [JFun] stands for a built-in function
    object reached through a prototype (for instance [Array.prototype.values]
    when the body is an array). *)
Inductive value : Type :=
| JUndefined
| JNull
| JBool (b : bool)
| JNum (n : Z)
| JStr (s : string)
| JArr (items : list value)
| JObj (fields : list (string * value))
| JFun (name : string).

Definition nullish (v : value) : bool :=
  match v with
  | JUndefined | JNull => true
  | _ => false
  end.

Definition truthy (v : value) : bool :=
  match v with
  | JUndefined | JNull => false
  | JBool b => b
  | JNum n => negb (n =? 0)%Z
  | JStr s => str_truthy s
  | JArr _ | JObj _ | JFun _ => true
  end.

(** Own property of an object literal. *)
Fixpoint own (fields : list (string * value)) (k : string) : option value :=
  match fields with
  | [] => None
  | (k', v) :: rest => if String.eqb k' k then Some v else own rest k
  end.

(** ** The fetch API *)

Record Response : Type := {
  status : Z;
  contentType : option string;   (* headers.get('Content-Type') *)
  bodyText : string;             (* what text() resolves with *)
  bodyJson : option value        (* what json() resolves with; None: not JSON *)
}.

(** [response.ok], as the fetch polyfill computes it. *)
Definition ok (r : Response) : bool := ((200 <=? status r) && (status r <? 300))%Z.

Record Request : Type := {
  req_url : string;
  req_method : string;
  req_headers : list (string * string)
}.

Inductive FetchOutcome : Type :=
| NetworkError               (* fetch rejects with a TypeError *)
| Responded (r : Response).

(** The network answers the [n]-th request issued through it. *)
Definition Net : Type := nat -> Request -> FetchOutcome.

(** ** Exceptions and completions *)

Inductive exn : Type :=
| TypeError
| SyntaxError
| ThrownResponse (r : Response).

Inductive Result (A : Type) : Type :=
| Return (a : A)
| Throw (e : exn).
Arguments Return {A} a.
Arguments Throw {A} e.

(** [e.status] for a caught object: only a response has one. *)
Definition exn_status (e : exn) : value :=
  match e with
  | ThrownResponse r => JNum (status r)
  | TypeError | SyntaxError => JUndefined
  end.

(** Member access [v.k].  Reading a member of [undefined] or [null] throws.
    Inherited members are modelled for the names the service reads
    ([values], [map], [name], [path], [slug], [language]): of these only
    arrays inherit [values] and [map], and only functions have a [name]. *)
Definition member (v : value) (k : string) : Result value :=
  match v with
  | JUndefined | JNull => Throw TypeError
  | JObj fields =>
      Return (match own fields k with Some x => x | None => JUndefined end)
  | JArr _ =>
      Return (if String.eqb k "values" then JFun "values"
              else if String.eqb k "map" then JFun "map"
              else JUndefined)
  | JFun name => Return (if String.eqb k "name" then JStr name else JUndefined)
  | JBool _ | JNum _ | JStr _ => Return JUndefined
  end.

Fixpoint map_items (f : value -> Result value) (items : list value)
  : Result (list value) :=
  match items with
  | [] => Return []
  | x :: rest =>
      match f x with
      | Throw e => Throw e
      | Return y =>
          match map_items f rest with
          | Throw e => Throw e
          | Return ys => Return (y :: ys)
          end
      end
  end.

(** [recv.map(f)]: only an array has a callable [map]; on anything else the
    call throws a TypeError (values that come out of JSON hold no
    functions). *)
Definition call_map (recv : value) (f : value -> Result value)
  : Result (list value) :=
  match recv with
  | JArr items => map_items f items
  | _ => Throw TypeError
  end.

(** [recv?.map(f)]: short-circuits to [undefined] on a nullish receiver. *)
Definition opt_call_map (recv : value) (f : value -> Result value) : Result value :=
  if nullish recv then Return JUndefined
  else
    match call_map recv f with
    | Throw e => Throw e
    | Return ys => Return (JArr ys)
    end.

(** [a || b]. *)
Definition js_or (a b : value) : value := if truthy a then a else b.

(** [v === s] for a string [s]. *)
Definition strict_eq_str (v : value) (s : string) : bool :=
  match v with
  | JStr s' => String.eqb s' s
  | _ => false
  end.

(** [v === n] for a number [n] (the test of a [case n:] label). *)
Definition strict_eq_num (v : value) (n : Z) : bool :=
  match v with
  | JNum n' => (n' =? n)%Z
  | _ => false
  end.

(** [o === s] for what [headers.get] returns: a string or [null]. *)
Definition opt_eq_str (o : option string) (s : string) : bool :=
  match o with
  | Some s' => String.eqb s' s
  | None => false
  end.

(** A template placeholder holding an optional string. *)
Definition tpl (o : option string) : string :=
  match o with
  | Some s => s
  | None => "undefined"
  end.

(** ** Asynchronous computations

    An [Async A] runs against a network and the list of requests issued so
    far; it extends that list and completes with a value (the promise
    resolves) or with a thrown object (the promise rejects). *)
Definition Async (A : Type) : Type :=
  Net -> list Request -> list Request * Result A.

Definition ret {A} (a : A) : Async A := fun _ tr => (tr, Return a).

Definition throw {A} (e : exn) : Async A := fun _ tr => (tr, Throw e).

Definition lift {A} (r : Result A) : Async A := fun _ tr => (tr, r).

Definition bind {A B} (c : Async A) (k : A -> Async B) : Async B :=
  fun net tr =>
    match c net tr with
    | (tr', Return a) => k a net tr'
    | (tr', Throw e) => (tr', Throw e)
    end.

Definition try_catch {A} (body : Async A) (handler : exn -> Async A) : Async A :=
  fun net tr =>
    match body net tr with
    | (tr', Return a) => (tr', Return a)
    | (tr', Throw e) => handler e net tr'
    end.

Notation "x <- c ;; k" := (bind c (fun x => k))
  (at level 61, c at next level, right associativity).

(** [fetch(url, { headers })]: one GET, logged, answered by the network. *)
Definition fetch (u : string) (headers : list (string * string)) : Async Response :=
  fun net tr =>
    let req := {| req_url := u; req_method := "GET"; req_headers := headers |} in
    ((tr ++ [req])%list,
     match net (List.length tr) req with
     | NetworkError => Throw TypeError
     | Responded r => Return r
     end).

Definition text (r : Response) : Async value := ret (JStr (bodyText r)).

Definition json (r : Response) : Async value :=
  match bodyJson r with
  | Some v => ret v
  | None => throw SyntaxError
  end.

(** Result of one computation started on a fresh log. *)
Definition run {A} (c : Async A) (net : Net) : Result A := snd (c net []).

Definition requests {A} (c : Async A) (net : Net) : list Request := fst (c net []).

(** Object spread [{ ...base, ...extra }] on string-valued records. *)
Fixpoint set_key (k v : string) (o : list (string * string)) : list (string * string) :=
  match o with
  | [] => [(k, v)]
  | (k', v') :: rest =>
      if String.eqb k' k then (k', v) :: rest else (k', v') :: set_key k v rest
  end.

Definition spread (base : list (string * string)) (extra : option (list (string * string)))
  : list (string * string) :=
  match extra with
  | None => base
  | Some kvs => fold_left (fun o kv => set_key (fst kv) (snd kv) o) kvs base
  end.

(** ** Data model of the service *)

(** Modelled from the spec: the [SecretType] enumeration is declared in
    [../types], outside the sources at hand.  The service names only
    [BASIC_AUTH]; every other member of the enumeration is an
    [OTHER_SECRET]. *)
Inductive SecretType : Type :=
| BASIC_AUTH
| OTHER_SECRET (tag : nat).

(** Modelled from the spec: the [RepoStatus] enumeration of [../types],
    with the members the reachability check can return. *)
Inductive RepoStatus : Type :=
| Reachable
| Unreachable
| RateLimitExceeded
| InvalidGitTypeSelected
| PrivateRepo
| ResourceNotFound.

Record SecretContent : Type := {
  username : string;
  password : string
}.

(** Modelled from the spec: the [GitSource] descriptor of [../types]: a
    repository URL, an optional ref, context directory, Devfile and
    Dockerfile paths, and the authentication descriptor. *)
Module GitSource.
Record t : Type := {
  url : string;
  secretType : option SecretType;
  secretContent : option SecretContent;
  ref : option string;
  contextDir : option string;
  devfilePath : option string;
  dockerfilePath : option string
}.
End GitSource.

Module RepoMetadata.
Record t : Type := {
  repoName : string;
  owner : string;
  host : string;
  defaultBranch : string;
  contextDir : string;
  devfilePath : option string;
  dockerfilePath : option string
}.
End RepoMetadata.

(** What [ParseBitbucketUrl] hands back, as far as the service reads it. *)
Module ParsedUrl.
Record t : Type := {
  name : string;
  owner : string;
  host : string
}.
End ParsedUrl.

Record BranchList : Type := { branches : list value }.
Record RepoFileList : Type := { files : value }.
Record RepoLanguageList : Type := { languages : list value }.
Record FileListParams : Type := { specificPath : option string }.

(** Modelled from the spec: [BaseService] of [./base-service] keeps the
    source descriptor it is constructed with in [gitsource]; the fields
    below it are the ones [BitbucketService] adds. *)
Record BitbucketService : Type := {
  gitsource : GitSource.t;
  metadata : RepoMetadata.t;
  baseURL : string;
  isServer : bool
}.

(** Truthiness of an optional string ([undefined] and [''] are falsy). *)
Definition opt_truthy (o : option string) : bool :=
  match o with
  | Some s => str_truthy s
  | None => false
  end.

(** ** The service *)

Section Service.

(** The URL parser of the [parse-bitbucket-url] package. *)
Variable ParseBitbucketUrl : string -> ParsedUrl.t.

Definition getRepoMetadata (gs : GitSource.t) : RepoMetadata.t :=
  let parsed := ParseBitbucketUrl (GitSource.url gs) in
  let contextDir :=
    match GitSource.contextDir gs with
    | Some d => if str_truthy (strip_trailing_slash d) then strip_trailing_slash d else ""
    | None => ""
    end in
  {| RepoMetadata.repoName := ParsedUrl.name parsed;
     RepoMetadata.owner := ParsedUrl.owner parsed;
     RepoMetadata.host := ParsedUrl.host parsed;
     RepoMetadata.defaultBranch :=
       match GitSource.ref gs with
       | Some r => if str_truthy r then r else "HEAD"
       | None => "HEAD"
       end;
     RepoMetadata.contextDir := contextDir;
     RepoMetadata.devfilePath := GitSource.devfilePath gs;
     RepoMetadata.dockerfilePath := GitSource.dockerfilePath gs |}.

(** The constructor: [baseURL] and [isServer] start at their SaaS
    defaults and are overwritten when the host is not [bitbucket.org]. *)
Definition new_BitbucketService (gs : GitSource.t) : BitbucketService :=
  let md := getRepoMetadata gs in
  if negb (String.eqb (RepoMetadata.host md) "bitbucket.org") then
    {| gitsource := gs;
       metadata := md;
       baseURL := "https://" ++ RepoMetadata.host md ++ "/rest/api/1.0";
       isServer := true |}
  else
    {| gitsource := gs;
       metadata := md;
       baseURL := "https://api.bitbucket.org/2.0";
       isServer := false |}.

End Service.

(** [getAuthProvider]: the header record for basic auth, [null] otherwise.
    Destructuring an absent [secretContent] throws. *)
Definition getAuthProvider (this : BitbucketService)
  : Result (option (list (string * string))) :=
  match GitSource.secretType (gitsource this) with
  | Some BASIC_AUTH =>
      match GitSource.secretContent (gitsource this) with
      | None => Throw TypeError
      | Some sc =>
          let encodedAuth :=
            Base64.encode (Base64.decode (username sc) ++ ":" ++ Base64.decode (password sc)) in
          Return (Some [("Authorization", "Basic " ++ encodedAuth)])
      end
  | _ => Return None
  end.

Definition fetchJson (this : BitbucketService) (u : string) : Async value :=
  authHeaders <- lift (getAuthProvider this) ;;
  response <- fetch u (spread [("Accept", "application/json")] authHeaders) ;;
  if negb (ok response) then throw (ThrownResponse response)
  else
    if opt_eq_str (contentType response) "text/plain" then text response
    else json response.

Definition isRepoReachable (this : BitbucketService) : Async RepoStatus :=
  let md := metadata this in
  let u :=
    if isServer this
    then baseURL this ++ "/projects/" ++ RepoMetadata.owner md ++ "/repos/" ++ RepoMetadata.repoName md
    else baseURL this ++ "/repositories/" ++ RepoMetadata.owner md ++ "/" ++ RepoMetadata.repoName md in
  returned <-
    try_catch
      (data <- fetchJson this u ;;
       slug <- lift (member data "slug") ;;
       if strict_eq_str slug (RepoMetadata.repoName md)
       then ret (Some Reachable)
       else ret None)
      (fun e =>
         let s := exn_status e in
         if strict_eq_num s 429 then ret (Some RateLimitExceeded)
         else if strict_eq_num s 403 then ret (Some PrivateRepo)
         else if strict_eq_num s 404 then ret (Some ResourceNotFound)
         else ret (Some InvalidGitTypeSelected)) ;;
  match returned with
  | Some st => ret st
  | None => ret Unreachable
  end.

Definition getRepoBranchList (this : BitbucketService) : Async BranchList :=
  let md := metadata this in
  let u :=
    if isServer this
    then baseURL this ++ "/projects/" ++ RepoMetadata.owner md ++ "/repos/" ++ RepoMetadata.repoName md ++ "/branches"
    else baseURL this ++ "/repositories/" ++ RepoMetadata.owner md ++ "/" ++ RepoMetadata.repoName md ++ "/refs/branches" in
  try_catch
    (data <- fetchJson this u ;;
     vals <- lift (member data "values") ;;
     list <- lift (call_map vals (fun b => member b "name")) ;;
     ret {| branches := list |})
    (fun _ => ret {| branches := [] |}).

Definition isServerURL (this : BitbucketService) (isServer : bool)
    (specificPath : option string) : string :=
  let md := metadata this in
  if opt_truthy specificPath then
    if isServer
    then baseURL this ++ "/projects/" ++ RepoMetadata.owner md ++ "/repos/" ++ RepoMetadata.repoName md
         ++ "/files/" ++ RepoMetadata.contextDir md ++ "/" ++ tpl specificPath
         ++ "?limit=50&at=" ++ RepoMetadata.defaultBranch md
    else baseURL this ++ "/repositories/" ++ RepoMetadata.owner md ++ "/" ++ RepoMetadata.repoName md
         ++ "/src/" ++ RepoMetadata.defaultBranch md ++ "/" ++ RepoMetadata.contextDir md
         ++ "/" ++ tpl specificPath ++ "?pagelen=50"
  else
    if isServer
    then baseURL this ++ "/projects/" ++ RepoMetadata.owner md ++ "/repos/" ++ RepoMetadata.repoName md
         ++ "/files/" ++ RepoMetadata.contextDir md
         ++ "?limit=50&at=" ++ RepoMetadata.defaultBranch md
    else baseURL this ++ "/repositories/" ++ RepoMetadata.owner md ++ "/" ++ RepoMetadata.repoName md
         ++ "/src/" ++ RepoMetadata.defaultBranch md ++ "/" ++ RepoMetadata.contextDir md
         ++ "?pagelen=50".

Definition getRepoFileList (this : BitbucketService) (params : option FileListParams)
  : Async RepoFileList :=
  let requested :=
    match params with
    | Some p => specificPath p
    | None => None
    end in
  let u :=
    if opt_truthy requested
    then isServerURL this (isServer this) requested
    else isServerURL this (isServer this) None in
  try_catch
    (data <- fetchJson this u ;;
     files <-
       (if isServer this then lift (member data "values")
        else
          vals <- lift (member data "values") ;;
          mapped <- lift (opt_call_map vals (fun f => member f "path")) ;;
          ret (js_or mapped (JArr []))) ;;
     ret {| files := files |})
    (fun _ => ret {| files := JArr [] |}).

Definition getRepoLanguageList (this : BitbucketService) : Async RepoLanguageList :=
  let md := metadata this in
  let u :=
    if isServer this
    then baseURL this ++ "/projects/" ++ RepoMetadata.owner md ++ "/repos/" ++ RepoMetadata.repoName md
    else baseURL this ++ "/repositories/" ++ RepoMetadata.owner md ++ "/" ++ RepoMetadata.repoName md in
  try_catch
    (data <- fetchJson this u ;;
     language <- lift (member data "language") ;;
     ret {| languages := [language] |})
    (fun _ => ret {| languages := [] |}).

Definition isFilePresent (this : BitbucketService) (path : string) : Async bool :=
  let md := metadata this in
  let filePath := strip_leading_slash path in
  let u :=
    if isServer this
    then baseURL this ++ "/projects/" ++ RepoMetadata.owner md ++ "/repos/" ++ RepoMetadata.repoName md
         ++ "/raw/" ++ filePath ++ "?at=" ++ RepoMetadata.defaultBranch md
    else baseURL this ++ "/repositories/" ++ RepoMetadata.owner md ++ "/" ++ RepoMetadata.repoName md
         ++ "/src/" ++ RepoMetadata.defaultBranch md ++ "/" ++ filePath in
  try_catch
    (_ <- fetchJson this u ;; ret true)
    (fun _ => ret false).

(** [getFileContent] hands back the fetched body, or [null]. *)
Definition getFileContent (this : BitbucketService) (path : string) : Async value :=
  let md := metadata this in
  let filePath := strip_leading_slash path in
  let u :=
    if isServer this
    then baseURL this ++ "/projects/" ++ RepoMetadata.owner md ++ "/repos/" ++ RepoMetadata.repoName md
         ++ "/raw/" ++ filePath ++ "?at=" ++ RepoMetadata.defaultBranch md
    else baseURL this ++ "/repositories/" ++ RepoMetadata.owner md ++ "/" ++ RepoMetadata.repoName md
         ++ "/src/" ++ RepoMetadata.defaultBranch md ++ "/" ++ filePath in
  try_catch
    (data <- fetchJson this u ;; ret data)
    (fun _ => ret JNull).

Definition isDockerfilePresent (this : BitbucketService) : Async bool :=
  isFilePresent this
    (RepoMetadata.contextDir (metadata this) ++ "/" ++ tpl (RepoMetadata.dockerfilePath (metadata this))).

Definition isTektonFolderPresent (this : BitbucketService) : Async bool :=
  isFilePresent this (RepoMetadata.contextDir (metadata this) ++ "/.tekton").

Definition getDockerfileContent (this : BitbucketService) : Async value :=
  getFileContent this
    (RepoMetadata.contextDir (metadata this) ++ "/" ++ tpl (RepoMetadata.dockerfilePath (metadata this))).

Definition isDevfilePresent (this : BitbucketService) : Async bool :=
  isFilePresent this
    (RepoMetadata.contextDir (metadata this) ++ "/" ++ tpl (RepoMetadata.devfilePath (metadata this))).

Definition getDevfileContent (this : BitbucketService) : Async value :=
  getFileContent this
    (RepoMetadata.contextDir (metadata this) ++ "/" ++ tpl (RepoMetadata.devfilePath (metadata this))).

Definition getPackageJsonContent (this : BitbucketService) : Async value :=
  getFileContent this (RepoMetadata.contextDir (metadata this) ++ "/package.json").

(** ** Sessions: the public operations called on one adapter, in any order *)

Inductive Call : Type :=
| CallIsRepoReachable
| CallGetRepoBranchList
| CallGetRepoFileList (params : option FileListParams)
| CallGetRepoLanguageList
| CallIsFilePresent (path : string)
| CallGetFileContent (path : string)
| CallIsDockerfilePresent
| CallIsTektonFolderPresent
| CallGetDockerfileContent
| CallIsDevfilePresent
| CallGetDevfileContent
| CallGetPackageJsonContent.

Definition discard {A} (c : Async A) : Async unit := _ <- c ;; ret tt.

Definition perform (this : BitbucketService) (c : Call) : Async unit :=
  match c with
  | CallIsRepoReachable => discard (isRepoReachable this)
  | CallGetRepoBranchList => discard (getRepoBranchList this)
  | CallGetRepoFileList params => discard (getRepoFileList this params)
  | CallGetRepoLanguageList => discard (getRepoLanguageList this)
  | CallIsFilePresent path => discard (isFilePresent this path)
  | CallGetFileContent path => discard (getFileContent this path)
  | CallIsDockerfilePresent => discard (isDockerfilePresent this)
  | CallIsTektonFolderPresent => discard (isTektonFolderPresent this)
  | CallGetDockerfileContent => discard (getDockerfileContent this)
  | CallIsDevfilePresent => discard (isDevfilePresent this)
  | CallGetDevfileContent => discard (getDevfileContent this)
  | CallGetPackageJsonContent => discard (getPackageJsonContent this)
  end.

Fixpoint session (this : BitbucketService) (calls : list Call) : Async unit :=
  match calls with
  | [] => ret tt
  | c :: rest => _ <- perform this c ;; session this rest
  end.

(** ** A reference instance of the URL parser

    [host/owner/name] read off an [https://host/owner/name] URL; it stands
    in for the parser parameter in the worked scenarios. *)
Module Sample.

Fixpoint split_slash (acc : string) (s : string) : list string :=
  match s with
  | EmptyString => [acc]
  | String c rest =>
      if Ascii.eqb c "/"%char then acc :: split_slash "" rest
      else split_slash (acc ++ String c "") rest
  end.

Definition parse (u : string) : ParsedUrl.t :=
  match split_slash "" u with
  | _scheme :: _empty :: h :: o :: n :: _ =>
      {| ParsedUrl.name := n; ParsedUrl.owner := o; ParsedUrl.host := h |}
  | _ =>
      {| ParsedUrl.name := ""; ParsedUrl.owner := ""; ParsedUrl.host := "bitbucket.org" |}
  end.

Definition gitsource_of (u : string) (r : option string) : GitSource.t :=
  {| GitSource.url := u;
     GitSource.secretType := None;
     GitSource.secretContent := None;
     GitSource.ref := r;
     GitSource.contextDir := None;
     GitSource.devfilePath := None;
     GitSource.dockerfilePath := None |}.

(** A network that gives the same answer to every request. *)
Definition always (o : FetchOutcome) : Net := fun _ _ => o.

(** JSON text of a value (strings are written without escapes). *)
Fixpoint stringify (v : value) : string :=
  let quote := String "034"%char "" in
  match v with
  | JUndefined | JFun _ => ""
  | JNull => "null"
  | JBool true => "true"
  | JBool false => "false"
  | JNum n => NilZero.string_of_int (Z.to_int n)
  | JStr s => quote ++ s ++ quote
  | JArr items =>
      "[" ++ (fix join (l : list value) : string :=
                match l with
                | [] => ""
                | x :: rest =>
                    stringify x ++ match rest with [] => "" | _ => "," ++ join rest end
                end) items ++ "]"
  | JObj fields =>
      "{" ++ (fix join (l : list (string * value)) : string :=
                match l with
                | [] => ""
                | (k, x) :: rest =>
                    quote ++ k ++ quote ++ ":" ++ stringify x
                    ++ match rest with [] => "" | _ => "," ++ join rest end
                end) fields ++ "}"
  end.

Definition json_response (code : Z) (v : value) : Response :=
  {| status := code;
     contentType := Some "application/json";
     bodyText := stringify v;
     bodyJson := Some v |}.

End Sample.

(** * The pod traffic indicator

    [GetPodTraffic] is a function component: what it renders is a function
    of its props and of what the resource watch hands back (the endpoint
    slices of the namespace, the [loaded] flag and whether a load error is
    reported).  Rendered elements are kept as a small tree type, with the
    translation keys in place of the translated texts. *)
Module PodTraffic.

Record TargetRef : Type := { name : option string }.

Record Endpoint : Type := { targetRef : option TargetRef }.

(** [endpoints] may be missing, and so may any entry of it. *)
Record EndpointSlice : Type := { endpoints : option (list (option Endpoint)) }.

Inductive Icon : Type :=
| ConnectedIcon
| DisconnectedIcon.

Inductive View : Type :=
| LoadingInline
| StatusError (title : string)
| TooltipView (content : string) (icon : Icon)   (* div > Tooltip > icon *)
| IconView (icon : Icon)
| RendersFalse.                                   (* the value [false] *)

(** [prev.concat(next?.endpoints)]: an array argument is spliced in, a
    missing one is appended as a single [undefined] entry. *)
Definition concat_endpoints (prev : list (option Endpoint)) (next : option EndpointSlice)
  : list (option Endpoint) :=
  match next with
  | Some slice =>
      match endpoints slice with
      | Some eps => (prev ++ eps)%list
      | None => (prev ++ [None])%list
      end
  | None => (prev ++ [None])%list
  end.

(** [endPoint?.targetRef?.name === podName] *)
Definition targets (podName : string) (endPoint : option Endpoint) : bool :=
  match endPoint with
  | Some e =>
      match targetRef e with
      | Some ref =>
          match name ref with
          | Some n => String.eqb n podName
          | None => false
          end
      | None => false
      end
  | None => false
  end.

(** Truthiness of what [find] hands back: an endpoint object, or
    [undefined]. *)
Definition found (r : option (option Endpoint)) : bool :=
  match r with
  | Some (Some _) => true
  | _ => false
  end.

Definition GetPodTraffic (podName : string) (tooltipFlag : option bool)
    (data : option (list (option EndpointSlice))) (loaded loadError : bool) : View :=
  if negb loaded then LoadingInline
  else if loaded && loadError then StatusError "public~Error"
  else
    let allEndpoints :=
      match data with
      | Some slices => Some (fold_left concat_endpoints slices [])
      | None => None
      end in
    let receivingTraffic :=
      match allEndpoints with
      | Some eps => find (targets podName) eps
      | None => None
      end in
    if match tooltipFlag with Some true => true | _ => false end then
      if loaded && negb loadError then
        TooltipView
          (if found receivingTraffic
           then "public~Receiving Traffic" else "public~Not Receiving Traffic")
          (if found receivingTraffic then ConnectedIcon else DisconnectedIcon)
      else RendersFalse
    else
      if loaded && negb loadError then
        IconView (if found receivingTraffic then ConnectedIcon else DisconnectedIcon)
      else RendersFalse.

(** The icon a view shows, if it shows one. *)
Definition icon_of (v : View) : option Icon :=
  match v with
  | TooltipView _ i | IconView i => Some i
  | _ => None
  end.

(** Some slice lists an endpoint whose target is the pod. *)
Definition receives (podName : string) (data : option (list (option EndpointSlice))) : Prop :=
  exists slices slice eps ref,
    data = Some slices /\ In (Some slice) slices /\ endpoints slice = Some eps /\
    In (Some {| targetRef := Some ref |}) eps /\ name ref = Some podName.

End PodTraffic.

(** * Vocabulary of the properties *)

(** [Issues P c]: whatever the network answers, [c] only appends requests
    satisfying [P] to the log. *)
Definition Issues {A} (P : Request -> Prop) (c : Async A) : Prop :=
  forall net tr, exists sent,
    fst (c net tr) = (tr ++ sent)%list /\ Forall P sent.

(** A GET whose URL satisfies [Q]. *)
Definition get_to (Q : string -> Prop) (r : Request) : Prop :=
  req_method r = "GET" /\ Q (req_url r).

(** The two endpoint shapes: the repository resource under the base path. *)
Definition server_root (this : BitbucketService) : string :=
  baseURL this ++ "/projects/" ++ RepoMetadata.owner (metadata this)
  ++ "/repos/" ++ RepoMetadata.repoName (metadata this).

Definition saas_root (this : BitbucketService) : string :=
  baseURL this ++ "/repositories/" ++ RepoMetadata.owner (metadata this)
  ++ "/" ++ RepoMetadata.repoName (metadata this).

Definition under (root : string) : Request -> Prop :=
  get_to (fun u => String.prefix root u = true).

(** The URL of the repository resource, read by the reachability check and
    the language list. *)
Definition repo_url (this : BitbucketService) : string :=
  if isServer this then server_root this else saas_root this.

(** The URL of the branch list. *)
Definition branches_url (this : BitbucketService) : string :=
  let md := metadata this in
  if isServer this
  then baseURL this ++ "/projects/" ++ RepoMetadata.owner md ++ "/repos/" ++ RepoMetadata.repoName md ++ "/branches"
  else baseURL this ++ "/repositories/" ++ RepoMetadata.owner md ++ "/" ++ RepoMetadata.repoName md ++ "/refs/branches".

(** The URL of the raw content of [filePath] on [branch]. *)
Definition raw_url (this : BitbucketService) (branch filePath : string) : string :=
  let md := metadata this in
  if isServer this
  then baseURL this ++ "/projects/" ++ RepoMetadata.owner md ++ "/repos/" ++ RepoMetadata.repoName md
       ++ "/raw/" ++ filePath ++ "?at=" ++ branch
  else baseURL this ++ "/repositories/" ++ RepoMetadata.owner md ++ "/" ++ RepoMetadata.repoName md
       ++ "/src/" ++ branch ++ "/" ++ filePath.

(** The path a file-list call asks for, if any. *)
Definition requested_path (params : option FileListParams) : option string :=
  match params with
  | Some p => if opt_truthy (specificPath p) then specificPath p else None
  | None => None
  end.

(** The URL of the directory listing on [branch], of the context directory
    or of [sub] below it. *)
Definition listing_url (this : BitbucketService) (branch : string) (sub : option string)
  : string :=
  let md := metadata this in
  match sub with
  | Some p =>
      if isServer this
      then baseURL this ++ "/projects/" ++ RepoMetadata.owner md ++ "/repos/" ++ RepoMetadata.repoName md
           ++ "/files/" ++ RepoMetadata.contextDir md ++ "/" ++ p ++ "?limit=50&at=" ++ branch
      else baseURL this ++ "/repositories/" ++ RepoMetadata.owner md ++ "/" ++ RepoMetadata.repoName md
           ++ "/src/" ++ branch ++ "/" ++ RepoMetadata.contextDir md ++ "/" ++ p ++ "?pagelen=50"
  | None =>
      if isServer this
      then baseURL this ++ "/projects/" ++ RepoMetadata.owner md ++ "/repos/" ++ RepoMetadata.repoName md
           ++ "/files/" ++ RepoMetadata.contextDir md ++ "?limit=50&at=" ++ branch
      else baseURL this ++ "/repositories/" ++ RepoMetadata.owner md ++ "/" ++ RepoMetadata.repoName md
           ++ "/src/" ++ branch ++ "/" ++ RepoMetadata.contextDir md ++ "?pagelen=50"
  end.

(** The answers of the network on which the fetch primitive fails: no
    answer at all, a status outside 200..299, or a body that is to be
    parsed as JSON and is not JSON. *)
Definition fetch_fails (o : FetchOutcome) : bool :=
  match o with
  | NetworkError => true
  | Responded r =>
      negb (ok r)
      || (negb (opt_eq_str (contentType r) "text/plain")
          && match bodyJson r with Some _ => false | None => true end)
  end.

(** [net] answers the first request, whatever it is, with [o]. *)
Definition answers (net : Net) (o : FetchOutcome) : Prop :=
  forall req, net 0 req = o.

(** ** Worked scenarios *)
Module Scenario.

Definition saas_adapter : BitbucketService :=
  new_BitbucketService Sample.parse
    (Sample.gitsource_of "https://bitbucket.org/org/repo" (Some "main")).

Definition server_adapter : BitbucketService :=
  new_BitbucketService Sample.parse
    (Sample.gitsource_of "https://git.example.com/org/repo" None).

Definition basic_auth_source : GitSource.t :=
  {| GitSource.url := "https://bitbucket.org/org/repo";
     GitSource.secretType := Some BASIC_AUTH;
     GitSource.secretContent := Some {| username := "dXNlcg=="; password := "cGFzcw==" |};
     GitSource.ref := Some "main";
     GitSource.contextDir := None;
     GitSource.devfilePath := None;
     GitSource.dockerfilePath := None |}.

Definition basic_auth_adapter : BitbucketService :=
  new_BitbucketService Sample.parse basic_auth_source.

(** [{ values: [{name: "main"}, {name: "dev"}] }] *)
Definition two_branches : value :=
  JObj [("values", JArr [JObj [("name", JStr "main")]; JObj [("name", JStr "dev")]])].

(** [{ values: [{}] }] *)
Definition nameless_branch : value := JObj [("values", JArr [JObj []])].

Definition branches_ok : Response :=
  Sample.json_response 200 two_branches.

Definition server_error : Response :=
  {| status := 500; contentType := Some "text/html";
     bodyText := "Internal Server Error"; bodyJson := None |}.

Definition rate_limited : Response :=
  {| status := 429; contentType := Some "text/html";
     bodyText := "Too Many Requests"; bodyJson := None |}.

Definition null_body : Response := Sample.json_response 200 JNull.

Definition empty_object : Response := Sample.json_response 200 (JObj []).

Definition nameless_branches : Response :=
  Sample.json_response 200 nameless_branch.

(** A Dockerfile served with a 200 and a binary content type. *)
Definition dockerfile_bytes : Response :=
  {| status := 200; contentType := Some "application/octet-stream";
     bodyText := "FROM scratch"; bodyJson := None |}.

Definition plain_text : Response :=
  {| status := 200; contentType := Some "text/plain";
     bodyText := "FROM scratch"; bodyJson := None |}.

(** A basic-auth descriptor that lost its credentials. *)
Definition no_credentials_adapter : BitbucketService :=
  new_BitbucketService Sample.parse
    {| GitSource.url := "https://bitbucket.org/org/repo";
       GitSource.secretType := Some BASIC_AUTH;
       GitSource.secretContent := None;
       GitSource.ref := Some "main";
       GitSource.contextDir := None;
       GitSource.devfilePath := None;
       GitSource.dockerfilePath := None |}.

(** Listings with an entry that lacks the member read, with a [null]
    entry, and with a [values] that is not an array. *)
Definition partly_named : value :=
  JObj [("values", JArr [JObj [("name", JStr "main")]; JObj []])].

Definition with_null_branch : value :=
  JObj [("values", JArr [JObj [("name", JStr "main")]; JNull])].

Definition values_as_text : value := JObj [("values", JStr "Dockerfile")].

Definition partly_pathed : value :=
  JObj [("values", JArr [JObj [("path", JStr "src")]; JStr "x"])].

Definition with_null_file : value := JObj [("values", JArr [JNull])].

Definition answering (v : value) : Net :=
  Sample.always (Responded (Sample.json_response 200 v)).

(** A Dockerfile served with a 200 as text with a charset parameter. *)
Definition plain_text_with_charset : Response :=
  {| status := 200; contentType := Some "text/plain; charset=utf-8";
     bodyText := "FROM scratch"; bodyJson := None |}.

End Scenario.

(** ** Vocabulary of the further properties *)

(** A computation that leaves the request log as it found it. *)
Definition Silent {A} (c : Async A) : Prop :=
  forall net tr, fst (c net tr) = tr.

(** A computation that always completes normally. *)
Definition Total {A} (c : Async A) : Prop :=
  forall net tr, exists a, snd (c net tr) = Return a.

(** The request the fetch primitive sends for [u] with the derived headers. *)
Definition request_of (u : string) (headers : option (list (string * string))) : Request :=
  {| req_url := u;
     req_method := "GET";
     req_headers :=
       ("Accept", "application/json")
       :: match headers with Some kvs => kvs | None => [] end |}.

(** [v.k] where it can be read, [undefined] where reading throws. *)
Definition read (v : value) (k : string) : value :=
  match member v k with
  | Return x => x
  | Throw _ => JUndefined
  end.

(** The same source descriptor with another context directory. *)
Definition with_contextDir (gs : GitSource.t) (d : option string) : GitSource.t :=
  {| GitSource.url := GitSource.url gs;
     GitSource.secretType := GitSource.secretType gs;
     GitSource.secretContent := GitSource.secretContent gs;
     GitSource.ref := GitSource.ref gs;
     GitSource.contextDir := d;
     GitSource.devfilePath := GitSource.devfilePath gs;
     GitSource.dockerfilePath := GitSource.dockerfilePath gs |}.

(** The URL each public operation asks for. *)
Definition call_url (this : BitbucketService) (c : Call) : string :=
  let md := metadata this in
  let branch := RepoMetadata.defaultBranch md in
  let at_context (leaf : string) :=
    raw_url this branch (strip_leading_slash (RepoMetadata.contextDir md ++ "/" ++ leaf)) in
  match c with
  | CallIsRepoReachable | CallGetRepoLanguageList => repo_url this
  | CallGetRepoBranchList => branches_url this
  | CallGetRepoFileList params => listing_url this branch (requested_path params)
  | CallIsFilePresent path | CallGetFileContent path =>
      raw_url this branch (strip_leading_slash path)
  | CallIsDockerfilePresent | CallGetDockerfileContent =>
      at_context (tpl (RepoMetadata.dockerfilePath md))
  | CallIsDevfilePresent | CallGetDevfileContent =>
      at_context (tpl (RepoMetadata.devfilePath md))
  | CallIsTektonFolderPresent => at_context ".tekton"
  | CallGetPackageJsonContent => at_context "package.json"
  end.

(** Strings made of ASCII characters only. *)
Definition ascii_only (s : string) : Prop :=
  Forall (fun b => (b < 128)%N) (Base64.bytes_of s).

(** The self-hosted endpoint of each operation, on the base path [base]:
    the project/repo resource, its [/branches], [/files] listing with
    [limit] and [at], and [/raw] content with [at]. *)
Definition server_shape (base : string) (md : RepoMetadata.t) (c : Call) : string :=
  let owner := RepoMetadata.owner md in
  let name := RepoMetadata.repoName md in
  let branch := RepoMetadata.defaultBranch md in
  let ctx := RepoMetadata.contextDir md in
  let raw (path : string) :=
    base ++ "/projects/" ++ owner ++ "/repos/" ++ name
    ++ "/raw/" ++ strip_leading_slash path ++ "?at=" ++ branch in
  match c with
  | CallIsRepoReachable | CallGetRepoLanguageList =>
      base ++ "/projects/" ++ owner ++ "/repos/" ++ name
  | CallGetRepoBranchList =>
      base ++ "/projects/" ++ owner ++ "/repos/" ++ name ++ "/branches"
  | CallGetRepoFileList params =>
      match requested_path params with
      | Some p =>
          base ++ "/projects/" ++ owner ++ "/repos/" ++ name
          ++ "/files/" ++ ctx ++ "/" ++ p ++ "?limit=50&at=" ++ branch
      | None =>
          base ++ "/projects/" ++ owner ++ "/repos/" ++ name
          ++ "/files/" ++ ctx ++ "?limit=50&at=" ++ branch
      end
  | CallIsFilePresent path | CallGetFileContent path => raw path
  | CallIsDockerfilePresent | CallGetDockerfileContent =>
      raw (ctx ++ "/" ++ tpl (RepoMetadata.dockerfilePath md))
  | CallIsDevfilePresent | CallGetDevfileContent =>
      raw (ctx ++ "/" ++ tpl (RepoMetadata.devfilePath md))
  | CallIsTektonFolderPresent => raw (ctx ++ "/.tekton")
  | CallGetPackageJsonContent => raw (ctx ++ "/package.json")
  end.

(** The SaaS endpoint of each operation, on the base path [base]: the
    repository resource, its [/refs/branches], and [/src/<branch>/...]
    for listings (with [pagelen]) and for content. *)
Definition saas_shape (base : string) (md : RepoMetadata.t) (c : Call) : string :=
  let owner := RepoMetadata.owner md in
  let name := RepoMetadata.repoName md in
  let branch := RepoMetadata.defaultBranch md in
  let ctx := RepoMetadata.contextDir md in
  let raw (path : string) :=
    base ++ "/repositories/" ++ owner ++ "/" ++ name
    ++ "/src/" ++ branch ++ "/" ++ strip_leading_slash path in
  match c with
  | CallIsRepoReachable | CallGetRepoLanguageList =>
      base ++ "/repositories/" ++ owner ++ "/" ++ name
  | CallGetRepoBranchList =>
      base ++ "/repositories/" ++ owner ++ "/" ++ name ++ "/refs/branches"
  | CallGetRepoFileList params =>
      match requested_path params with
      | Some p =>
          base ++ "/repositories/" ++ owner ++ "/" ++ name
          ++ "/src/" ++ branch ++ "/" ++ ctx ++ "/" ++ p ++ "?pagelen=50"
      | None =>
          base ++ "/repositories/" ++ owner ++ "/" ++ name
          ++ "/src/" ++ branch ++ "/" ++ ctx ++ "?pagelen=50"
      end
  | CallIsFilePresent path | CallGetFileContent path => raw path
  | CallIsDockerfilePresent | CallGetDockerfileContent =>
      raw (ctx ++ "/" ++ tpl (RepoMetadata.dockerfilePath md))
  | CallIsDevfilePresent | CallGetDevfileContent =>
      raw (ctx ++ "/" ++ tpl (RepoMetadata.devfilePath md))
  | CallIsTektonFolderPresent => raw (ctx ++ "/.tekton")
  | CallGetPackageJsonContent => raw (ctx ++ "/package.json")
  end.

(** * Properties *)

(** ** The codec on the documented credentials *)

Example b64_user : Base64.decode "dXNlcg==" = "user".
Proof. reflexivity. Qed.

Example b64_pass : Base64.decode "cGFzcw==" = "pass".
Proof. reflexivity. Qed.

Example b64_joined : Base64.encode "user:pass" = "dXNlcjpwYXNz".
Proof. reflexivity. Qed.

Example b64_padding : Base64.encode "ab" = "YWI=" /\ Base64.decode "YWI=" = "ab".
Proof. split; reflexivity. Qed.

Example b64_round_trip :
  Base64.decode (Base64.encode "s3cr3t/pass word!") = "s3cr3t/pass word!".
Proof. reflexivity. Qed.

(** ** String prefixes *)

Lemma prefix_refl (s : string) : String.prefix s s = true.
Proof.
  induction s as [|c s IH]; simpl; [reflexivity|].
  destruct (ascii_dec c c); [exact IH | congruence].
Qed.

Lemma prefix_append (p s : string) : String.prefix p (p ++ s) = true.
Proof.
  induction p as [|c p IH]; simpl.
  - destruct s; reflexivity.
  - destruct (ascii_dec c c); [exact IH | congruence].
Qed.

Lemma prefix_cong (a p s : string) :
  String.prefix p s = true -> String.prefix (a ++ p) (a ++ s) = true.
Proof.
  intros H. induction a as [|c a IH]; simpl; [exact H|].
  destruct (ascii_dec c c); [exact IH | congruence].
Qed.

Ltac prefix_tac :=
  repeat (apply prefix_cong); first [apply prefix_refl | apply prefix_append].

(** ** What a computation sends *)

Lemma Issues_ret {A} P (a : A) : Issues P (ret a).
Proof. intros net tr. exists []. simpl. rewrite app_nil_r. auto. Qed.

Lemma Issues_throw {A} P e : Issues P (@throw A e).
Proof. intros net tr. exists []. simpl. rewrite app_nil_r. auto. Qed.

Lemma Issues_lift {A} P (r : Result A) : Issues P (lift r).
Proof. intros net tr. exists []. simpl. rewrite app_nil_r. auto. Qed.

Lemma Issues_bind {A B} P (c : Async A) (k : A -> Async B) :
  Issues P c -> (forall a, Issues P (k a)) -> Issues P (bind c k).
Proof.
  intros Hc Hk net tr. unfold bind.
  destruct (Hc net tr) as [s1 [E1 F1]].
  destruct (c net tr) as [tr' [a|e]] eqn:Ec; simpl in E1; subst tr'.
  - destruct (Hk a net (tr ++ s1)%list) as [s2 [E2 F2]].
    exists (s1 ++ s2)%list. rewrite E2, app_assoc. split; [reflexivity|].
    apply Forall_app; auto.
  - exists s1. auto.
Qed.

Lemma Issues_try_catch {A} P (c : Async A) (h : exn -> Async A) :
  Issues P c -> (forall e, Issues P (h e)) -> Issues P (try_catch c h).
Proof.
  intros Hc Hh net tr. unfold try_catch.
  destruct (Hc net tr) as [s1 [E1 F1]].
  destruct (c net tr) as [tr' [a|e]] eqn:Ec; simpl in E1; subst tr'.
  - exists s1. auto.
  - destruct (Hh e net (tr ++ s1)%list) as [s2 [E2 F2]].
    exists (s1 ++ s2)%list. rewrite E2, app_assoc. split; [reflexivity|].
    apply Forall_app; auto.
Qed.

Lemma Issues_fetch P u headers :
  P {| req_url := u; req_method := "GET"; req_headers := headers |} ->
  Issues P (fetch u headers).
Proof.
  intros HP net tr. unfold fetch. simpl.
  eexists. split; [reflexivity|]. constructor; auto.
Qed.

Lemma Issues_fetchJson (Q : string -> Prop) this u :
  Q u -> Issues (get_to Q) (fetchJson this u).
Proof.
  intros HQ. unfold fetchJson.
  apply Issues_bind; [apply Issues_lift|]. intros h.
  apply Issues_bind; [apply Issues_fetch; split; auto|]. intros r.
  destruct (negb (ok r)); [apply Issues_throw|].
  destruct (opt_eq_str _ _).
  - apply Issues_ret.
  - unfold json. destruct (bodyJson r); [apply Issues_ret | apply Issues_throw].
Qed.

Lemma Issues_discard {A} P (c : Async A) : Issues P c -> Issues P (discard c).
Proof. intros H. apply Issues_bind; [exact H|]. intros; apply Issues_ret. Qed.

Ltac issues_tac :=
  repeat first
    [ apply Issues_fetchJson
    | apply Issues_try_catch; [|intros]
    | apply Issues_bind; [|intros]
    | apply Issues_discard
    | apply Issues_ret | apply Issues_throw | apply Issues_lift
    | match goal with |- Issues _ (if ?b then _ else _) => destruct b end
    | match goal with |- Issues _ (match ?b with _ => _ end) => destruct b end ].

(** ** Request shapes of an adapter in each mode *)

Lemma isServerURL_server this sp :
  String.prefix (server_root this) (isServerURL this true sp) = true.
Proof. unfold isServerURL, server_root. destruct (opt_truthy sp); prefix_tac. Qed.

Lemma isServerURL_saas this sp :
  String.prefix (saas_root this) (isServerURL this false sp) = true.
Proof. unfold isServerURL, saas_root. destruct (opt_truthy sp); prefix_tac. Qed.

Lemma isFilePresent_server this path :
  isServer this = true -> Issues (under (server_root this)) (isFilePresent this path).
Proof.
  intros Hs. unfold isFilePresent. rewrite Hs. issues_tac.
  unfold server_root. prefix_tac.
Qed.

Lemma isFilePresent_saas this path :
  isServer this = false -> Issues (under (saas_root this)) (isFilePresent this path).
Proof.
  intros Hs. unfold isFilePresent. rewrite Hs. issues_tac.
  unfold saas_root. prefix_tac.
Qed.

Lemma getFileContent_server this path :
  isServer this = true -> Issues (under (server_root this)) (getFileContent this path).
Proof.
  intros Hs. unfold getFileContent. rewrite Hs. issues_tac.
  unfold server_root. prefix_tac.
Qed.

Lemma getFileContent_saas this path :
  isServer this = false -> Issues (under (saas_root this)) (getFileContent this path).
Proof.
  intros Hs. unfold getFileContent. rewrite Hs. issues_tac.
  unfold saas_root. prefix_tac.
Qed.

Lemma perform_server this c :
  isServer this = true -> Issues (under (server_root this)) (perform this c).
Proof.
  intros Hs. destruct c; simpl; apply Issues_discard;
    try (first [apply isFilePresent_server | apply getFileContent_server]; exact Hs).
  - unfold isRepoReachable. rewrite Hs. issues_tac.
    unfold server_root. prefix_tac.
  - unfold getRepoBranchList. rewrite Hs. issues_tac.
    unfold server_root. prefix_tac.
  - unfold getRepoFileList. rewrite Hs.
    apply Issues_try_catch; [|intros; apply Issues_ret].
    apply Issues_bind; [|intros; issues_tac].
    apply Issues_fetchJson. destruct (opt_truthy _); apply isServerURL_server.
  - unfold getRepoLanguageList. rewrite Hs. issues_tac.
    unfold server_root. prefix_tac.
Qed.

Lemma perform_saas this c :
  isServer this = false -> Issues (under (saas_root this)) (perform this c).
Proof.
  intros Hs. destruct c; simpl; apply Issues_discard;
    try (first [apply isFilePresent_saas | apply getFileContent_saas]; exact Hs).
  - unfold isRepoReachable. rewrite Hs. issues_tac.
    unfold saas_root. prefix_tac.
  - unfold getRepoBranchList. rewrite Hs. issues_tac.
    unfold saas_root. prefix_tac.
  - unfold getRepoFileList. rewrite Hs.
    apply Issues_try_catch; [|intros; apply Issues_ret].
    apply Issues_bind; [|intros; issues_tac].
    apply Issues_fetchJson. destruct (opt_truthy _); apply isServerURL_saas.
  - unfold getRepoLanguageList. rewrite Hs. issues_tac.
    unfold saas_root. prefix_tac.
Qed.

Lemma session_issues P this calls :
  (forall c, Issues P (perform this c)) -> Issues P (session this calls).
Proof.
  intros H. induction calls as [|c rest IH]; simpl.
  - apply Issues_ret.
  - apply Issues_bind; [apply H | intros; exact IH].
Qed.

Lemma requests_of_issues {A} P (c : Async A) net :
  Issues P c -> Forall P (requests c net).
Proof.
  intros H. unfold requests. destruct (H net []) as [sent [E F]].
  rewrite E. exact F.
Qed.

(** ** Topology *)

Lemma constructor_server parse gs :
  ParsedUrl.host (parse (GitSource.url gs)) <> "bitbucket.org" ->
  isServer (new_BitbucketService parse gs) = true /\
  baseURL (new_BitbucketService parse gs)
  = "https://" ++ ParsedUrl.host (parse (GitSource.url gs)) ++ "/rest/api/1.0".
Proof.
  intros Hh. unfold new_BitbucketService. simpl.
  destruct (String.eqb_spec (ParsedUrl.host (parse (GitSource.url gs))) "bitbucket.org");
    [contradiction | simpl; auto].
Qed.

Lemma constructor_saas parse gs :
  ParsedUrl.host (parse (GitSource.url gs)) = "bitbucket.org" ->
  isServer (new_BitbucketService parse gs) = false /\
  baseURL (new_BitbucketService parse gs) = "https://api.bitbucket.org/2.0".
Proof.
  intros Hh. unfold new_BitbucketService. simpl.
  rewrite Hh. simpl. auto.
Qed.

Lemma constructor_metadata parse gs :
  metadata (new_BitbucketService parse gs) = getRepoMetadata parse gs.
Proof.
  unfold new_BitbucketService. destruct (negb _); reflexivity.
Qed.

(** ** Running a computation *)

Lemma ok_spec (r : Response) : ok r = true <-> (200 <= status r < 300)%Z.
Proof. unfold ok. rewrite andb_true_iff, Z.leb_le, Z.ltb_lt. tauto. Qed.

Lemma opt_eq_str_spec (o : option string) (s : string) :
  opt_eq_str o s = true <-> o = Some s.
Proof.
  destruct o as [s'|]; simpl.
  - rewrite String.eqb_eq. split; [intros ->; reflexivity | intros H; inversion H; reflexivity].
  - split; discriminate.
Qed.

Lemma try_catch_returns {A} (c : Async A) (h : exn -> Async A) net tr :
  (forall e net' tr', exists a, snd (h e net' tr') = Return a) ->
  exists a, snd (try_catch c h net tr) = Return a.
Proof.
  intros Hh. unfold try_catch. destruct (c net tr) as [tr' [a|e]].
  - exists a. reflexivity.
  - apply Hh.
Qed.

Lemma try_catch_caught {A} (c : Async A) (h : exn -> Async A) net e :
  run c net = Throw e -> run (try_catch c h) net = snd (h e net (fst (c net []))).
Proof.
  unfold run, try_catch. destruct (c net []) as [tr' [a|e']]; simpl; intros H.
  - discriminate.
  - inversion H. reflexivity.
Qed.

Lemma bind_thrown {A B} (c : Async A) (k : A -> Async B) net e :
  run c net = Throw e -> run (bind c k) net = Throw e.
Proof.
  unfold run, bind. destruct (c net []) as [tr' [a|e']]; simpl; intros H.
  - discriminate.
  - inversion H. reflexivity.
Qed.

Lemma bind_returned {A B} (c : Async A) (k : A -> Async B) net a :
  run c net = Return a -> run (bind c k) net = snd (k a net (fst (c net []))).
Proof.
  unfold run, bind. destruct (c net []) as [tr' [a'|e']]; simpl; intros H.
  - inversion H. reflexivity.
  - discriminate.
Qed.

Lemma try_catch_returned {A} (c : Async A) (h : exn -> Async A) net a :
  run c net = Return a -> run (try_catch c h) net = Return a.
Proof.
  unfold run, try_catch. destruct (c net []) as [tr' [a'|e']]; simpl; intros H.
  - exact H.
  - discriminate.
Qed.

(** ** The fetch primitive *)

Lemma spread_accept this h :
  getAuthProvider this = Return h ->
  spread [("Accept", "application/json")] h
  = ("Accept", "application/json") :: match h with Some kvs => kvs | None => [] end.
Proof.
  unfold getAuthProvider.
  destruct (GitSource.secretType (gitsource this)) as [[|tag]|];
    try (intros H; inversion H; reflexivity).
  destruct (GitSource.secretContent (gitsource this)) as [sc|];
    intros H; inversion H; reflexivity.
Qed.

Lemma fetchJson_eq this u net tr :
  fetchJson this u net tr =
  match getAuthProvider this with
  | Throw e => (tr, Throw e)
  | Return h =>
      let req := {| req_url := u; req_method := "GET";
                    req_headers := spread [("Accept", "application/json")] h |} in
      ((tr ++ [req])%list,
       match net (List.length tr) req with
       | NetworkError => Throw TypeError
       | Responded r =>
           if negb (ok r) then Throw (ThrownResponse r)
           else if opt_eq_str (contentType r) "text/plain" then Return (JStr (bodyText r))
           else match bodyJson r with
                | Some v => Return v
                | None => Throw SyntaxError
                end
       end)
  end.
Proof.
  unfold fetchJson, bind, lift, fetch.
  destruct (getAuthProvider this) as [h|e]; [|reflexivity].
  cbv zeta. destruct (net _ _) as [|r]; [reflexivity|].
  destruct (negb (ok r)); [reflexivity|].
  destruct (opt_eq_str _ _); [reflexivity|].
  unfold json. destruct (bodyJson r); reflexivity.
Qed.

Lemma fetchJson_fails this u net o :
  answers net o -> fetch_fails o = true ->
  exists e, run (fetchJson this u) net = Throw e.
Proof.
  intros Hn Hf. unfold run. rewrite fetchJson_eq.
  destruct (getAuthProvider this) as [h|e]; [|exists e; reflexivity].
  cbv zeta. simpl. rewrite (Hn _).
  destruct o as [|r]; [eexists; reflexivity|].
  simpl in Hf. destruct (negb (ok r)); [eexists; reflexivity|].
  destruct (opt_eq_str _ _); [discriminate|].
  destruct (bodyJson r); [discriminate | eexists; reflexivity].
Qed.

Lemma fetchJson_delivers this u net o h :
  getAuthProvider this = Return h -> answers net o -> fetch_fails o = false ->
  exists data, run (fetchJson this u) net = Return data.
Proof.
  intros Ha Hn Hf. unfold run. rewrite fetchJson_eq, Ha.
  cbv zeta. simpl. rewrite (Hn _).
  destruct o as [|r]; [discriminate|].
  simpl in Hf. destruct (negb (ok r)); [discriminate|].
  destruct (opt_eq_str _ _); [eexists; reflexivity|].
  destruct (bodyJson r); [eexists; reflexivity | discriminate].
Qed.

(** ** Authentication headers *)

(** C4. The header record depends on the authentication descriptor only.
    For basic auth it is the single header [Authorization: Basic t], where
    [t] is the base64 form of the decoded user name, a colon and the
    decoded password; for the stored pair [dXNlcg==], [cGFzcw==] that is
    [Basic dXNlcjpwYXNz].  For any other or absent kind there are no
    authentication headers. *)
Theorem getAuthProvider_derivation :
  (forall this sc,
     GitSource.secretType (gitsource this) = Some BASIC_AUTH ->
     GitSource.secretContent (gitsource this) = Some sc ->
     getAuthProvider this
     = Return (Some [("Authorization",
                      "Basic " ++ Base64.encode (Base64.decode (username sc) ++ ":"
                                                 ++ Base64.decode (password sc)))]))
  /\
  (forall this,
     GitSource.secretType (gitsource this) = Some BASIC_AUTH ->
     GitSource.secretContent (gitsource this)
     = Some {| username := "dXNlcg=="; password := "cGFzcw==" |} ->
     getAuthProvider this = Return (Some [("Authorization", "Basic dXNlcjpwYXNz")]))
  /\
  (forall this,
     GitSource.secretType (gitsource this) <> Some BASIC_AUTH ->
     getAuthProvider this = Return None)
  /\
  (forall this this',
     GitSource.secretType (gitsource this) = GitSource.secretType (gitsource this') ->
     GitSource.secretContent (gitsource this) = GitSource.secretContent (gitsource this') ->
     getAuthProvider this = getAuthProvider this').
Proof.
  repeat split.
  - intros this sc Ht Hc. unfold getAuthProvider. rewrite Ht, Hc. reflexivity.
  - intros this Ht Hc. unfold getAuthProvider. rewrite Ht, Hc. reflexivity.
  - intros this Ht. unfold getAuthProvider.
    destruct (GitSource.secretType (gitsource this)) as [[|tag]|];
      [congruence | reflexivity | reflexivity].
  - intros this this' Ht Hc. unfold getAuthProvider. rewrite Ht, Hc. reflexivity.
Qed.

Lemma getAuthProvider_derivation_witness :
  getAuthProvider Scenario.basic_auth_adapter
  = Return (Some [("Authorization",
                   "Basic " ++ Base64.encode (Base64.decode "dXNlcg==" ++ ":"
                                              ++ Base64.decode "cGFzcw=="))])
  /\ getAuthProvider Scenario.basic_auth_adapter
     = Return (Some [("Authorization", "Basic dXNlcjpwYXNz")])
  /\ getAuthProvider Scenario.saas_adapter = Return None
  /\ getAuthProvider Scenario.saas_adapter = getAuthProvider Scenario.server_adapter.
Proof.
  destruct getAuthProvider_derivation as [Hgen [Hex [Hnone Hpure]]].
  split; [|split; [|split]].
  - exact (Hgen Scenario.basic_auth_adapter
             {| username := "dXNlcg=="; password := "cGFzcw==" |} eq_refl eq_refl).
  - exact (Hex Scenario.basic_auth_adapter eq_refl eq_refl).
  - apply Hnone. simpl. discriminate.
  - apply Hpure; reflexivity.
Defined.

(** C5. The fetch primitive, once the authentication headers are derived,
    issues exactly one request: a GET of the given URL carrying
    [Accept: application/json] followed by the authentication headers.  On
    a response whose status is outside 200..299 it fails with that very
    response; on a 200..299 response it hands back the body text when the
    content type is [text/plain], and what parsing the body as JSON gives
    otherwise. *)
Theorem fetchJson_contract :
  forall this u headers net tr,
    getAuthProvider this = Return headers ->
    let req :=
      {| req_url := u;
         req_method := "GET";
         req_headers :=
           ("Accept", "application/json")
           :: match headers with Some kvs => kvs | None => [] end |} in
    fst (fetchJson this u net tr) = (tr ++ [req])%list /\
    forall r,
      net (List.length tr) req = Responded r ->
      (~ (200 <= status r < 300)%Z ->
       snd (fetchJson this u net tr) = Throw (ThrownResponse r)) /\
      ((200 <= status r < 300)%Z ->
       contentType r = Some "text/plain" ->
       snd (fetchJson this u net tr) = Return (JStr (bodyText r))) /\
      ((200 <= status r < 300)%Z ->
       contentType r <> Some "text/plain" ->
       snd (fetchJson this u net tr)
       = match bodyJson r with
         | Some v => Return v
         | None => Throw SyntaxError
         end).
Proof.
  intros this u headers net tr Ha req.
  rewrite fetchJson_eq, Ha. cbv zeta. rewrite (spread_accept _ _ Ha). fold req.
  split; [reflexivity|].
  intros r Hr. simpl. rewrite Hr.
  repeat split.
  - intros Hs. destruct (ok r) eqn:Hok; [|reflexivity].
    apply ok_spec in Hok. contradiction.
  - intros Hs Hc. apply ok_spec in Hs. rewrite Hs. simpl.
    apply opt_eq_str_spec in Hc. rewrite Hc. reflexivity.
  - intros Hs Hc. apply ok_spec in Hs. rewrite Hs. simpl.
    destruct (opt_eq_str (contentType r) "text/plain") eqn:He; [|reflexivity].
    apply opt_eq_str_spec in He. contradiction.
Qed.

Lemma fetchJson_contract_witness :
  fetchJson Scenario.basic_auth_adapter "https://api.bitbucket.org/2.0/x"
    (Sample.always (Responded Scenario.plain_text)) []
  = ([{| req_url := "https://api.bitbucket.org/2.0/x";
         req_method := "GET";
         req_headers := [("Accept", "application/json");
                         ("Authorization", "Basic dXNlcjpwYXNz")] |}],
     Return (JStr "FROM scratch")).
Proof.
  destruct (fetchJson_contract Scenario.basic_auth_adapter
              "https://api.bitbucket.org/2.0/x"
              (Some [("Authorization", "Basic dXNlcjpwYXNz")])
              (Sample.always (Responded Scenario.plain_text)) [] eq_refl)
    as [Hreq Hres].
  destruct (Hres Scenario.plain_text eq_refl) as [_ [Htext _]].
  apply injective_projections.
  - exact Hreq.
  - apply Htext; [simpl; lia | reflexivity].
Defined.

(** ** Reachability *)

Lemma isRepoReachable_run this net :
  run (isRepoReachable this) net =
  match run (fetchJson this (repo_url this)) net with
  | Throw e =>
      Return (if strict_eq_num (exn_status e) 429 then RateLimitExceeded
              else if strict_eq_num (exn_status e) 403 then PrivateRepo
              else if strict_eq_num (exn_status e) 404 then ResourceNotFound
              else InvalidGitTypeSelected)
  | Return data =>
      match member data "slug" with
      | Throw _ => Return InvalidGitTypeSelected
      | Return slug =>
          if strict_eq_str slug (RepoMetadata.repoName (metadata this))
          then Return Reachable
          else Return Unreachable
      end
  end.
Proof.
  unfold isRepoReachable, repo_url, server_root, saas_root, run, bind, try_catch.
  destruct (fetchJson this _ net []) as [tr' [data|e]]; simpl.
  - destruct (member data "slug") as [slug|e] eqn:Hm; simpl.
    + destruct (strict_eq_str slug _); reflexivity.
    + destruct data; simpl in Hm; inversion Hm; reflexivity.
  - destruct (strict_eq_num (exn_status e) 429); [reflexivity|].
    destruct (strict_eq_num (exn_status e) 403); [reflexivity|].
    destruct (strict_eq_num (exn_status e) 404); reflexivity.
Qed.

Lemma strict_eq_num_spec v n : strict_eq_num v n = true <-> v = JNum n.
Proof.
  destruct v; simpl; try (split; discriminate).
  rewrite Z.eqb_eq. split; [intros ->; reflexivity | intros H; inversion H; reflexivity].
Qed.

Lemma strict_eq_str_spec v s : strict_eq_str v s = true <-> v = JStr s.
Proof.
  destruct v; simpl; try (split; discriminate).
  rewrite String.eqb_eq. split; [intros ->; reflexivity | intros H; inversion H; reflexivity].
Qed.

Ltac failure_status Hrun :=
  split;
  [ intros H; rewrite Hrun in H;
    match goal with
    | |- exists r, ?f = _ /\ _ =>
        destruct f as [data|[| |r]]; simpl in H;
        [ destruct (member data "slug") as [slug|]; [destruct (strict_eq_str slug _)|];
          discriminate
        | discriminate
        | discriminate
        | exists r; split; [reflexivity|];
          destruct (status r =? 429)%Z eqn:E1; [apply Z.eqb_eq in E1; try exact E1; discriminate|];
          destruct (status r =? 403)%Z eqn:E2; [apply Z.eqb_eq in E2; try exact E2; discriminate|];
          destruct (status r =? 404)%Z eqn:E3; [apply Z.eqb_eq in E3; try exact E3; discriminate|];
          discriminate ]
    end
  | intros [r [Hf Hs]]; rewrite Hf in Hrun; rewrite Hrun; simpl; rewrite Hs; reflexivity ].

(** C2, as the code has it.  The status is [RateLimitExceeded] exactly when
    the request fails with a 429 response, [PrivateRepo] exactly for 403
    and [ResourceNotFound] exactly for 404; every other failure of the
    fetch primitive gives [InvalidGitTypeSelected].  When the request
    succeeds with a body whose [slug] is the repository name the status is
    [Reachable]; with a body whose [slug] can be read and is anything else
    it is [Unreachable]; with a [null] body, whose [slug] cannot be read,
    it is [InvalidGitTypeSelected]. *)
Theorem isRepoReachable_status :
  forall this net,
    let fetched := run (fetchJson this (repo_url this)) net in
    let result := run (isRepoReachable this) net in
    ((result = Return RateLimitExceeded <->
      exists r, fetched = Throw (ThrownResponse r) /\ status r = 429%Z) /\
     (result = Return PrivateRepo <->
      exists r, fetched = Throw (ThrownResponse r) /\ status r = 403%Z) /\
     (result = Return ResourceNotFound <->
      exists r, fetched = Throw (ThrownResponse r) /\ status r = 404%Z))
    /\
    (forall e, fetched = Throw e ->
       exn_status e <> JNum 429 -> exn_status e <> JNum 403 -> exn_status e <> JNum 404 ->
       result = Return InvalidGitTypeSelected)
    /\
    (forall data, fetched = Return data ->
       member data "slug" = Return (JStr (RepoMetadata.repoName (metadata this))) ->
       result = Return Reachable)
    /\
    (forall data slug, fetched = Return data ->
       member data "slug" = Return slug ->
       slug <> JStr (RepoMetadata.repoName (metadata this)) ->
       result = Return Unreachable)
    /\
    (forall data, fetched = Return data -> nullish data = true ->
       result = Return InvalidGitTypeSelected).
Proof.
  intros this net fetched result.
  assert (Hrun := isRepoReachable_run this net). fold fetched result in Hrun.
  split; [|split; [|split; [|split]]].
  - split; [|split]; failure_status Hrun.
  - intros e He N1 N2 N3. rewrite He in Hrun. rewrite Hrun.
    destruct (strict_eq_num (exn_status e) 429) eqn:E1;
      [apply strict_eq_num_spec in E1; contradiction|].
    destruct (strict_eq_num (exn_status e) 403) eqn:E2;
      [apply strict_eq_num_spec in E2; contradiction|].
    destruct (strict_eq_num (exn_status e) 404) eqn:E3;
      [apply strict_eq_num_spec in E3; contradiction|].
    reflexivity.
  - intros data Hf Hm. rewrite Hf in Hrun. rewrite Hrun, Hm. simpl.
    rewrite String.eqb_refl. reflexivity.
  - intros data slug Hf Hm Hne. rewrite Hf in Hrun. rewrite Hrun, Hm.
    destruct (strict_eq_str slug _) eqn:E; [|reflexivity].
    apply strict_eq_str_spec in E. contradiction.
  - intros data Hf Hn. rewrite Hf in Hrun. rewrite Hrun.
    destruct data; simpl in Hn; try discriminate; reflexivity.
Qed.

Lemma isRepoReachable_status_witness :
  run (isRepoReachable Scenario.saas_adapter)
      (Sample.always (Responded Scenario.rate_limited)) = Return RateLimitExceeded
  /\ run (isRepoReachable Scenario.saas_adapter)
         (Sample.always (Responded Scenario.server_error)) = Return InvalidGitTypeSelected
  /\ run (isRepoReachable Scenario.saas_adapter)
         (Sample.always (Responded (Sample.json_response 200 (JObj [("slug", JStr "repo")]))))
     = Return Reachable
  /\ run (isRepoReachable Scenario.saas_adapter)
         (Sample.always (Responded Scenario.empty_object)) = Return Unreachable
  /\ run (isRepoReachable Scenario.saas_adapter)
         (Sample.always (Responded Scenario.null_body)) = Return InvalidGitTypeSelected.
Proof.
  split; [|split; [|split; [|split]]].
  - destruct (isRepoReachable_status Scenario.saas_adapter
                (Sample.always (Responded Scenario.rate_limited))) as [[[_ H] _] _].
    apply H. exists Scenario.rate_limited. split; reflexivity.
  - destruct (isRepoReachable_status Scenario.saas_adapter
                (Sample.always (Responded Scenario.server_error))) as [_ [H _]].
    apply (H (ThrownResponse Scenario.server_error)); [reflexivity | | | ]; discriminate.
  - destruct (isRepoReachable_status Scenario.saas_adapter
                (Sample.always (Responded (Sample.json_response 200 (JObj [("slug", JStr "repo")])))))
      as [_ [_ [Hmatch _]]].
    apply (Hmatch (JObj [("slug", JStr "repo")])); reflexivity.
  - destruct (isRepoReachable_status Scenario.saas_adapter
                (Sample.always (Responded Scenario.empty_object))) as [_ [_ [_ [Hother _]]]].
    apply (Hother (JObj []) JUndefined); [reflexivity | reflexivity | discriminate].
  - destruct (isRepoReachable_status Scenario.saas_adapter
                (Sample.always (Responded Scenario.null_body))) as [_ [_ [_ [_ Hnull]]]].
    apply (Hnull JNull); reflexivity.
Defined.

(** C2 fails as stated: a 200 response whose JSON body is [null] is a
    success of the request without a matching name, and the status is
    [InvalidGitTypeSelected], not [Unreachable]. *)
Lemma isRepoReachable_null_body :
  ok Scenario.null_body = true
  /\ run (fetchJson Scenario.saas_adapter (repo_url Scenario.saas_adapter))
         (Sample.always (Responded Scenario.null_body)) = Return JNull
  /\ member JNull "slug"
     <> Return (JStr (RepoMetadata.repoName (metadata Scenario.saas_adapter)))
  /\ run (isRepoReachable Scenario.saas_adapter)
         (Sample.always (Responded Scenario.null_body)) = Return InvalidGitTypeSelected
  /\ run (isRepoReachable Scenario.saas_adapter)
         (Sample.always (Responded Scenario.null_body)) <> Return Unreachable.
Proof.
  split; [reflexivity|]. split; [reflexivity|]. split; [discriminate|].
  split; [reflexivity|]. discriminate.
Qed.

(** ** The list operations *)

Ltac caught_by Hn Hf :=
  cbv zeta;
  match goal with
  | |- run (try_catch (bind (fetchJson ?t ?u) ?k) ?h) ?net = _ =>
      let e := fresh "e" in
      let He := fresh "He" in
      destruct (fetchJson_fails t u net _ Hn Hf) as [e He];
      rewrite (try_catch_caught _ h net e (bind_thrown _ k net e He));
      reflexivity
  end.

Ltac always_returns :=
  cbv zeta; unfold run;
  apply try_catch_returns; intros; eexists; reflexivity.

(** C3, as the code has it.  None of the three list operations ever
    throws, whatever the network does; and each returns the empty list
    when the fetch primitive fails: no answer, a status outside 200..299,
    or a body that has to be parsed as JSON and is not JSON. *)
Theorem list_operations_degrade :
  forall this params net,
    ((exists bl, run (getRepoBranchList this) net = Return bl) /\
     (exists fl, run (getRepoFileList this params) net = Return fl) /\
     (exists ll, run (getRepoLanguageList this) net = Return ll))
    /\
    (forall o, answers net o -> fetch_fails o = true ->
       run (getRepoBranchList this) net = Return {| branches := [] |} /\
       run (getRepoFileList this params) net = Return {| files := JArr [] |} /\
       run (getRepoLanguageList this) net = Return {| languages := [] |}).
Proof.
  intros this params net. split.
  - split; [|split].
    + unfold getRepoBranchList. always_returns.
    + unfold getRepoFileList. always_returns.
    + unfold getRepoLanguageList. always_returns.
  - intros o Hn Hf. split; [|split].
    + unfold getRepoBranchList. caught_by Hn Hf.
    + unfold getRepoFileList. caught_by Hn Hf.
    + unfold getRepoLanguageList. caught_by Hn Hf.
Qed.

Lemma list_operations_degrade_witness :
  run (getRepoBranchList Scenario.server_adapter)
      (Sample.always (Responded Scenario.server_error)) = Return {| branches := [] |}
  /\ run (getRepoFileList Scenario.server_adapter None)
         (Sample.always (Responded Scenario.server_error)) = Return {| files := JArr [] |}
  /\ run (getRepoLanguageList Scenario.server_adapter)
         (Sample.always (Responded Scenario.server_error)) = Return {| languages := [] |}.
Proof.
  apply (proj2 (list_operations_degrade Scenario.server_adapter None
                  (Sample.always (Responded Scenario.server_error)))
           (Responded Scenario.server_error)).
  - intros req. reflexivity.
  - reflexivity.
Defined.

(** C3 fails as stated: on a 200 response whose body has an unexpected
    shape, [{ values: [{}] }], the branch list is [[undefined]], not the
    empty list. *)
Lemma branch_list_of_nameless_entries :
  ok Scenario.nameless_branches = true
  /\ bodyJson Scenario.nameless_branches = Some (JObj [("values", JArr [JObj []])])
  /\ run (getRepoBranchList Scenario.saas_adapter)
         (Sample.always (Responded Scenario.nameless_branches))
     = Return {| branches := [JUndefined] |}
  /\ run (getRepoBranchList Scenario.saas_adapter)
         (Sample.always (Responded Scenario.nameless_branches))
     <> Return {| branches := [] |}.
Proof.
  split; [reflexivity|]. split; [reflexivity|]. split; [reflexivity|]. discriminate.
Qed.

(** C7 fails as stated: on a successful response without a [language]
    field the language list is [[undefined]], a list of one element. *)
Lemma language_list_of_empty_object :
  ok Scenario.empty_object = true
  /\ bodyJson Scenario.empty_object = Some (JObj [])
  /\ run (getRepoLanguageList Scenario.saas_adapter)
         (Sample.always (Responded Scenario.empty_object))
     = Return {| languages := [JUndefined] |}
  /\ run (getRepoLanguageList Scenario.saas_adapter)
         (Sample.always (Responded Scenario.empty_object))
     <> Return {| languages := [] |}.
Proof.
  split; [reflexivity|]. split; [reflexivity|]. split; [reflexivity|]. discriminate.
Qed.

Lemma getRepoLanguageList_run this net :
  run (getRepoLanguageList this) net =
  match run (fetchJson this (repo_url this)) net with
  | Throw _ => Return {| languages := [] |}
  | Return data =>
      match member data "language" with
      | Throw _ => Return {| languages := [] |}
      | Return language => Return {| languages := [language] |}
      end
  end.
Proof.
  unfold getRepoLanguageList, repo_url, server_root, saas_root, run, bind, try_catch.
  destruct (fetchJson this _ net []) as [tr' [data|e]]; simpl; [|reflexivity].
  destruct (member data "language"); reflexivity.
Qed.

Lemma Forall_get_to_eq (u : string) (l : list Request) :
  Forall (get_to (fun u' => u' = u)) l ->
  Forall (fun r => req_method r = "GET" /\ req_url r = u) l.
Proof. intros H. exact H. Qed.

Lemma getRepoLanguageList_issues this :
  Issues (get_to (fun u => u = repo_url this)) (getRepoLanguageList this).
Proof.
  unfold getRepoLanguageList, repo_url, server_root, saas_root.
  destruct (isServer this); issues_tac; reflexivity.
Qed.

(** C7, as the code has it.  The language list GETs the repository
    resource and wraps whatever the body's [language] member is as a
    one-element list; it is empty when the fetch primitive fails or the
    body is [null]; when the body is an object without a [language] field
    it is the one-element list [[undefined]]. *)
Theorem getRepoLanguageList_outcome :
  forall this net,
    let fetched := run (fetchJson this (repo_url this)) net in
    let result := run (getRepoLanguageList this) net in
    Forall (fun r => req_method r = "GET" /\ req_url r = repo_url this)
           (requests (getRepoLanguageList this) net)
    /\
    (forall data language, fetched = Return data ->
       member data "language" = Return language ->
       result = Return {| languages := [language] |})
    /\
    (forall e, fetched = Throw e -> result = Return {| languages := [] |})
    /\
    (forall data, fetched = Return data -> nullish data = true ->
       result = Return {| languages := [] |})
    /\
    (forall fields, fetched = Return (JObj fields) -> own fields "language" = None ->
       result = Return {| languages := [JUndefined] |}).
Proof.
  intros this net fetched result.
  assert (Hrun := getRepoLanguageList_run this net). fold fetched result in Hrun.
  split; [|split; [|split; [|split]]].
  - apply Forall_get_to_eq, requests_of_issues, getRepoLanguageList_issues.
  - intros data language Hf Hm. rewrite Hf, Hm in Hrun. exact Hrun.
  - intros e Hf. rewrite Hf in Hrun. exact Hrun.
  - intros data Hf Hn. rewrite Hf in Hrun. rewrite Hrun.
    destruct data; simpl in Hn; try discriminate; reflexivity.
  - intros fields Hf Ho. rewrite Hf in Hrun. rewrite Hrun. simpl. rewrite Ho. reflexivity.
Qed.

Lemma getRepoLanguageList_outcome_witness :
  run (getRepoLanguageList Scenario.saas_adapter)
      (Sample.always (Responded (Sample.json_response 200 (JObj [("language", JStr "go")]))))
  = Return {| languages := [JStr "go"] |}
  /\ run (getRepoLanguageList Scenario.saas_adapter)
         (Sample.always (Responded Scenario.server_error)) = Return {| languages := [] |}
  /\ run (getRepoLanguageList Scenario.saas_adapter)
         (Sample.always (Responded Scenario.null_body)) = Return {| languages := [] |}
  /\ run (getRepoLanguageList Scenario.saas_adapter)
         (Sample.always (Responded Scenario.empty_object))
     = Return {| languages := [JUndefined] |}.
Proof.
  split; [|split; [|split]].
  - destruct (getRepoLanguageList_outcome Scenario.saas_adapter
                (Sample.always (Responded (Sample.json_response 200 (JObj [("language", JStr "go")])))))
      as [_ [H _]].
    apply (H (JObj [("language", JStr "go")]) (JStr "go")); reflexivity.
  - destruct (getRepoLanguageList_outcome Scenario.saas_adapter
                (Sample.always (Responded Scenario.server_error))) as [_ [_ [H _]]].
    apply (H (ThrownResponse Scenario.server_error)). reflexivity.
  - destruct (getRepoLanguageList_outcome Scenario.saas_adapter
                (Sample.always (Responded Scenario.null_body))) as [_ [_ [_ [H _]]]].
    apply (H JNull); reflexivity.
  - destruct (getRepoLanguageList_outcome Scenario.saas_adapter
                (Sample.always (Responded Scenario.empty_object))) as [_ [_ [_ [_ H]]]].
    apply (H []); reflexivity.
Defined.

(** ** File presence *)

Lemma isFilePresent_run this path net :
  run (isFilePresent this path) net =
  match run (fetchJson this (raw_url this (RepoMetadata.defaultBranch (metadata this))
                               (strip_leading_slash path))) net with
  | Return _ => Return true
  | Throw _ => Return false
  end.
Proof.
  unfold isFilePresent, raw_url, run, bind, try_catch. cbv zeta.
  destruct (fetchJson this _ net []) as [tr' [data|e]]; reflexivity.
Qed.

Lemma isFilePresent_issues this path :
  Issues (get_to (fun u => u = raw_url this (RepoMetadata.defaultBranch (metadata this))
                                   (strip_leading_slash path)))
         (isFilePresent this path).
Proof. unfold isFilePresent, raw_url. issues_tac; reflexivity. Qed.


(** C6 fails as stated: a GET of the raw content that succeeds with a 200
    but whose body is neither declared [text/plain] nor JSON makes the
    existence check answer [false]. *)
Lemma isFilePresent_binary_body :
  status Scenario.dockerfile_bytes = 200%Z
  /\ ok Scenario.dockerfile_bytes = true
  /\ run (isFilePresent Scenario.saas_adapter "/Dockerfile")
         (Sample.always (Responded Scenario.dockerfile_bytes)) = Return false.
Proof. repeat split. Qed.

(** C6, as the code has it.  The existence check GETs the raw content at
    the path with one leading slash removed, never throws, and answers
    [true] exactly when the fetch primitive succeeds: the response has a
    status in 200..299 and its body is either declared [text/plain] or
    parses as JSON.  In every other case it answers [false]. *)
Theorem isFilePresent_outcome :
  forall this path net,
    let u := raw_url this (RepoMetadata.defaultBranch (metadata this))
               (strip_leading_slash path) in
    let result := run (isFilePresent this path) net in
    Forall (fun r => req_method r = "GET" /\ req_url r = u)
           (requests (isFilePresent this path) net)
    /\ (forall rest, path = String "/" rest -> strip_leading_slash path = rest)
    /\ ((forall rest, path <> String "/" rest) -> strip_leading_slash path = path)
    /\ (result = Return true \/ result = Return false)
    /\ (result = Return true <-> exists data, run (fetchJson this u) net = Return data)
    /\ (forall o headers,
          getAuthProvider this = Return headers -> answers net o ->
          result = Return (negb (fetch_fails o))).
Proof.
  intros this path net u result.
  assert (Hrun := isFilePresent_run this path net). fold u result in Hrun.
  split; [|split; [|split; [|split; [|split]]]].
  - apply Forall_get_to_eq, requests_of_issues, isFilePresent_issues.
  - intros rest ->. reflexivity.
  - intros Hno. destruct path as [|c rest]; [reflexivity|]. simpl.
    destruct (ascii_dec c "/"%char) as [->|Hc]; [exfalso; apply (Hno rest); reflexivity|].
    destruct c as [[] [] [] [] [] [] [] []]; try reflexivity. congruence.
  - rewrite Hrun. destruct (run (fetchJson this u) net); auto.
  - rewrite Hrun. destruct (run (fetchJson this u) net) as [data|e].
    + split; [intros _; exists data; reflexivity | reflexivity].
    + split; [discriminate | intros [data H]; discriminate].
  - intros o headers Ha Hn. rewrite Hrun.
    destruct (fetch_fails o) eqn:Hf.
    + destruct (fetchJson_fails this u net o Hn Hf) as [e He]. rewrite He. reflexivity.
    + destruct (fetchJson_delivers this u net o headers Ha Hn Hf) as [d Hd].
      rewrite Hd. reflexivity.
Qed.

Lemma isFilePresent_outcome_witness :
  run (isFilePresent Scenario.saas_adapter "/Dockerfile")
      (Sample.always (Responded Scenario.plain_text)) = Return true
  /\ run (isFilePresent Scenario.saas_adapter "/Dockerfile")
         (Sample.always (Responded Scenario.dockerfile_bytes)) = Return false
  /\ strip_leading_slash "/Dockerfile" = "Dockerfile"
  /\ strip_leading_slash "Dockerfile" = "Dockerfile".
Proof.
  split; [|split; [|split]].
  - destruct (isFilePresent_outcome Scenario.saas_adapter "/Dockerfile"
                (Sample.always (Responded Scenario.plain_text)))
      as [_ [_ [_ [_ [_ H]]]]].
    apply (H (Responded Scenario.plain_text) None); [reflexivity | intros req; reflexivity].
  - destruct (isFilePresent_outcome Scenario.saas_adapter "/Dockerfile"
                (Sample.always (Responded Scenario.dockerfile_bytes)))
      as [_ [_ [_ [_ [_ H]]]]].
    apply (H (Responded Scenario.dockerfile_bytes) None); [reflexivity | intros req; reflexivity].
  - destruct (isFilePresent_outcome Scenario.saas_adapter "/Dockerfile" (Sample.always NetworkError))
      as [_ [H _]].
    apply (H "Dockerfile"). reflexivity.
  - destruct (isFilePresent_outcome Scenario.saas_adapter "Dockerfile" (Sample.always NetworkError))
      as [_ [_ [H _]]].
    apply H. intros rest. discriminate.
Defined.

(** ** Branches *)

Lemma fetchJson_json this u net r headers v :
  getAuthProvider this = Return headers ->
  answers net (Responded r) ->
  (200 <= status r < 300)%Z ->
  contentType r <> Some "text/plain" ->
  bodyJson r = Some v ->
  run (fetchJson this u) net = Return v.
Proof.
  intros Ha Hn Hs Hc Hb. unfold run. rewrite fetchJson_eq, Ha. cbv zeta. simpl.
  rewrite (Hn _). apply ok_spec in Hs. rewrite Hs. simpl.
  destruct (opt_eq_str (contentType r) "text/plain") eqn:He.
  - apply opt_eq_str_spec in He. contradiction.
  - rewrite Hb. reflexivity.
Qed.

Lemma status_500_fails r : status r = 500%Z -> fetch_fails (Responded r) = true.
Proof. intros H. unfold fetch_fails, ok. rewrite H. reflexivity. Qed.

(** C8. An adapter constructed for [https://bitbucket.org/org/repo] with
    ref [main] maps a successful response
    [{ values: [{name: "main"}, {name: "dev"}] }] to the branch names
    [["main", "dev"]], and a 500 response to the empty list. *)
Theorem branch_list_scenario :
  forall parse gs headers net,
    GitSource.url gs = "https://bitbucket.org/org/repo" ->
    GitSource.ref gs = Some "main" ->
    let this := new_BitbucketService parse gs in
    getAuthProvider this = Return headers ->
    (forall r,
       answers net (Responded r) ->
       (200 <= status r < 300)%Z ->
       contentType r <> Some "text/plain" ->
       bodyJson r
       = Some (JObj [("values", JArr [JObj [("name", JStr "main")];
                                      JObj [("name", JStr "dev")]])]) ->
       run (getRepoBranchList this) net = Return {| branches := [JStr "main"; JStr "dev"] |})
    /\
    (forall r,
       answers net (Responded r) ->
       status r = 500%Z ->
       run (getRepoBranchList this) net = Return {| branches := [] |}).
Proof.
  intros parse gs headers net Hurl Href this Ha. split.
  - intros r Hn Hs Hc Hb. unfold getRepoBranchList. cbv zeta.
    match goal with
    | |- run (try_catch (bind (fetchJson ?t ?u) ?k) ?h) ?n = _ =>
        pose proof (fetchJson_json t u n r headers _ Ha Hn Hs Hc Hb) as Hf;
        rewrite (try_catch_returned (bind (fetchJson t u) k) h n
                   {| branches := [JStr "main"; JStr "dev"] |})
    end; [reflexivity|].
    match goal with
    | |- run (bind ?c ?k) ?n = _ => rewrite (bind_returned c k n _ Hf)
    end.
    reflexivity.
  - intros r Hn Hs. unfold getRepoBranchList.
    pose proof (status_500_fails r Hs) as Hf. caught_by Hn Hf.
Qed.

Lemma branch_list_scenario_witness :
  run (getRepoBranchList Scenario.saas_adapter)
      (Sample.always (Responded Scenario.branches_ok))
  = Return {| branches := [JStr "main"; JStr "dev"] |}
  /\ run (getRepoBranchList Scenario.saas_adapter)
         (Sample.always (Responded Scenario.server_error))
     = Return {| branches := [] |}.
Proof.
  split.
  - apply (proj1 (branch_list_scenario Sample.parse
                    (Sample.gitsource_of "https://bitbucket.org/org/repo" (Some "main"))
                    None (Sample.always (Responded Scenario.branches_ok))
                    eq_refl eq_refl eq_refl) Scenario.branches_ok).
    + intros req. reflexivity.
    + simpl. lia.
    + discriminate.
    + reflexivity.
  - apply (proj2 (branch_list_scenario Sample.parse
                    (Sample.gitsource_of "https://bitbucket.org/org/repo" (Some "main"))
                    None (Sample.always (Responded Scenario.server_error))
                    eq_refl eq_refl eq_refl) Scenario.server_error).
    + intros req. reflexivity.
    + reflexivity.
Defined.

(** ** The default branch *)

Lemma listing_url_eq this params :
  (if opt_truthy match params with Some p => specificPath p | None => None end
   then isServerURL this (isServer this)
          match params with Some p => specificPath p | None => None end
   else isServerURL this (isServer this) None)
  = listing_url this (RepoMetadata.defaultBranch (metadata this)) (requested_path params).
Proof.
  unfold isServerURL, listing_url, requested_path.
  destruct params as [[[s|]]|]; simpl; try reflexivity.
  destruct (str_truthy s); reflexivity.
Qed.





Example head_in_listing_url :
  requests (getRepoFileList Scenario.server_adapter None) (Sample.always NetworkError)
  = [{| req_url := "https://git.example.com/rest/api/1.0/projects/org/repos/repo/files/?limit=50&at=HEAD";
        req_method := "GET";
        req_headers := [("Accept", "application/json")] |}].
Proof. reflexivity. Qed.

Example head_in_raw_url :
  requests (isFilePresent
              (new_BitbucketService Sample.parse
                 (Sample.gitsource_of "https://bitbucket.org/org/repo" None))
              "/Dockerfile")
           (Sample.always NetworkError)
  = [{| req_url := "https://api.bitbucket.org/2.0/repositories/org/repo/src/HEAD/Dockerfile";
        req_method := "GET";
        req_headers := [("Accept", "application/json")] |}].
Proof. reflexivity. Qed.

(** ** Directory listings without a [values] field *)

Lemma getRepoFileList_run this params net :
  run (getRepoFileList this params) net =
  match run (fetchJson this (listing_url this (RepoMetadata.defaultBranch (metadata this))
                               (requested_path params))) net with
  | Throw _ => Return {| files := JArr [] |}
  | Return data =>
      match member data "values" with
      | Throw _ => Return {| files := JArr [] |}
      | Return vals =>
          if isServer this then Return {| files := vals |}
          else
            match opt_call_map vals (fun f => member f "path") with
            | Throw _ => Return {| files := JArr [] |}
            | Return mapped => Return {| files := js_or mapped (JArr []) |}
            end
      end
  end.
Proof.
  unfold getRepoFileList. cbv zeta. rewrite listing_url_eq.
  unfold run, bind, try_catch.
  destruct (fetchJson this _ net []) as [tr' [data|e]]; simpl; [|reflexivity].
  destruct (isServer this); simpl.
  - destruct (member data "values"); reflexivity.
  - destruct (member data "values") as [vals|e]; simpl; [|reflexivity].
    destruct (opt_call_map vals _); reflexivity.
Qed.

(** C10. On a successful directory listing whose body has no [values]
    member, the file list in SaaS mode is the empty list; in self-hosted
    mode the missing member is handed on as it is, [undefined]. *)
Theorem file_list_absent_values :
  forall this params net data,
    run (fetchJson this (listing_url this (RepoMetadata.defaultBranch (metadata this))
                           (requested_path params))) net = Return data ->
    member data "values" = Return JUndefined ->
    (isServer this = false ->
     run (getRepoFileList this params) net = Return {| files := JArr [] |})
    /\
    (isServer this = true ->
     run (getRepoFileList this params) net = Return {| files := JUndefined |}).
Proof.
  intros this params net data Hf Hm.
  rewrite getRepoFileList_run, Hf, Hm.
  split; intros Hs; rewrite Hs; reflexivity.
Qed.

Lemma file_list_absent_values_witness :
  run (getRepoFileList Scenario.saas_adapter None)
      (Sample.always (Responded Scenario.empty_object)) = Return {| files := JArr [] |}
  /\ run (getRepoFileList Scenario.server_adapter None)
         (Sample.always (Responded Scenario.empty_object)) = Return {| files := JUndefined |}.
Proof.
  split.
  - apply (proj1 (file_list_absent_values Scenario.saas_adapter None
                    (Sample.always (Responded Scenario.empty_object)) (JObj [])
                    eq_refl eq_refl)).
    reflexivity.
  - apply (proj2 (file_list_absent_values Scenario.server_adapter None
                    (Sample.always (Responded Scenario.empty_object)) (JObj [])
                    eq_refl eq_refl)).
    reflexivity.
Defined.

Example file_list_saas_paths :
  run (getRepoFileList Scenario.saas_adapter None)
      (Sample.always
         (Responded
            (Sample.json_response 200
               (JObj [("values", JArr [JObj [("path", JStr "Dockerfile")];
                                       JObj [("path", JStr "src")]])]))))
  = Return {| files := JArr [JStr "Dockerfile"; JStr "src"] |}.
Proof. reflexivity. Qed.

Example file_list_server_names :
  run (getRepoFileList Scenario.server_adapter None)
      (Sample.always
         (Responded
            (Sample.json_response 200
               (JObj [("values", JArr [JStr "Dockerfile"; JStr "pom.xml"])]))))
  = Return {| files := JArr [JStr "Dockerfile"; JStr "pom.xml"] |}.
Proof. reflexivity. Qed.

(** * Further properties *)

(** ** Logs and completions of the building blocks *)

Lemma Silent_ret {A} (a : A) : Silent (ret a).
Proof. intros net tr. reflexivity. Qed.

Lemma Silent_throw {A} e : Silent (@throw A e).
Proof. intros net tr. reflexivity. Qed.

Lemma Silent_lift {A} (r : Result A) : Silent (lift r).
Proof. intros net tr. reflexivity. Qed.

Lemma Silent_bind {A B} (c : Async A) (k : A -> Async B) :
  Silent c -> (forall a, Silent (k a)) -> Silent (bind c k).
Proof.
  intros Hc Hk net tr. unfold bind. specialize (Hc net tr).
  destruct (c net tr) as [tr' [a|e]]; simpl in Hc; subst tr'.
  - apply Hk.
  - reflexivity.
Qed.

Ltac silent_tac :=
  repeat first
    [ apply Silent_ret | apply Silent_throw | apply Silent_lift
    | apply Silent_bind; [|intros]
    | match goal with |- Silent (if ?b then _ else _) => destruct b end
    | match goal with |- Silent (match ?b with _ => _ end) => destruct b end ].

Lemma wrapped_log {A B} (f : Async A) (k : A -> Async B) (h : exn -> Async B) net tr :
  (forall a, Silent (k a)) -> (forall e, Silent (h e)) ->
  fst (try_catch (bind f k) h net tr) = fst (f net tr).
Proof.
  intros Hk Hh. unfold try_catch, bind.
  destruct (f net tr) as [tr' [a|e]]; simpl.
  - specialize (Hk a net tr'). destruct (k a net tr') as [tr'' [b|e]]; simpl in *.
    + exact Hk.
    + subst tr''. apply Hh.
  - apply Hh.
Qed.

Lemma bind_log {A B} (c : Async A) (k : A -> Async B) net tr :
  (forall a, Silent (k a)) -> fst (bind c k net tr) = fst (c net tr).
Proof.
  intros Hk. unfold bind. destruct (c net tr) as [tr' [a|e]]; simpl; [apply Hk | reflexivity].
Qed.

Lemma Total_ret {A} (a : A) : Total (ret a).
Proof. intros net tr. exists a. reflexivity. Qed.

Lemma Total_try_catch {A} (c : Async A) (h : exn -> Async A) :
  (forall e, Total (h e)) -> Total (try_catch c h).
Proof.
  intros Hh net tr. unfold try_catch. destruct (c net tr) as [tr' [a|e]].
  - exists a. reflexivity.
  - apply Hh.
Qed.

Lemma Total_bind {A B} (c : Async A) (k : A -> Async B) :
  Total c -> (forall a, Total (k a)) -> Total (bind c k).
Proof.
  intros Hc Hk net tr. unfold bind. destruct (Hc net tr) as [a Ha].
  destruct (c net tr) as [tr' [a'|e]]; simpl in Ha; [apply Hk | discriminate].
Qed.

Lemma fetchJson_log this u net tr :
  fst (fetchJson this u net tr)
  = match getAuthProvider this with
    | Return headers => (tr ++ [request_of u headers])%list
    | Throw _ => tr
    end.
Proof.
  rewrite fetchJson_eq. destruct (getAuthProvider this) as [h|e] eqn:Ha; [|reflexivity].
  cbv zeta. rewrite (spread_accept _ _ Ha). reflexivity.
Qed.

Lemma fetchJson_same_auth this this' u :
  getAuthProvider this = getAuthProvider this' -> fetchJson this u = fetchJson this' u.
Proof. intros H. unfold fetchJson. rewrite H. reflexivity. Qed.

(** ** One request per operation *)

Lemma isRepoReachable_log this net tr :
  fst (isRepoReachable this net tr) = fst (fetchJson this (repo_url this) net tr).
Proof.
  unfold isRepoReachable, repo_url, server_root, saas_root. cbv zeta.
  rewrite bind_log.
  - apply wrapped_log; intros; silent_tac.
  - intros a. destruct a; apply Silent_ret.
Qed.

Lemma getRepoBranchList_log this net tr :
  fst (getRepoBranchList this net tr) = fst (fetchJson this (branches_url this) net tr).
Proof.
  unfold getRepoBranchList, branches_url. cbv zeta. apply wrapped_log; intros; silent_tac.
Qed.

Lemma getRepoFileList_log this params net tr :
  fst (getRepoFileList this params net tr)
  = fst (fetchJson this (listing_url this (RepoMetadata.defaultBranch (metadata this))
                           (requested_path params)) net tr).
Proof.
  unfold getRepoFileList. cbv zeta. rewrite listing_url_eq.
  apply wrapped_log; intros; silent_tac.
Qed.

Lemma getRepoLanguageList_log this net tr :
  fst (getRepoLanguageList this net tr) = fst (fetchJson this (repo_url this) net tr).
Proof.
  unfold getRepoLanguageList, repo_url, server_root, saas_root. cbv zeta.
  apply wrapped_log; intros; silent_tac.
Qed.

Lemma isFilePresent_log this path net tr :
  fst (isFilePresent this path net tr)
  = fst (fetchJson this (raw_url this (RepoMetadata.defaultBranch (metadata this))
                           (strip_leading_slash path)) net tr).
Proof.
  unfold isFilePresent, raw_url. cbv zeta. apply wrapped_log; intros; silent_tac.
Qed.

Lemma getFileContent_log this path net tr :
  fst (getFileContent this path net tr)
  = fst (fetchJson this (raw_url this (RepoMetadata.defaultBranch (metadata this))
                           (strip_leading_slash path)) net tr).
Proof.
  unfold getFileContent, raw_url. cbv zeta. apply wrapped_log; intros; silent_tac.
Qed.

Lemma discard_log {A} (c : Async A) net tr : fst (discard c net tr) = fst (c net tr).
Proof. unfold discard. apply bind_log. intros; apply Silent_ret. Qed.

Lemma perform_log this c net tr :
  fst (perform this c net tr) = fst (fetchJson this (call_url this c) net tr).
Proof.
  destruct c; simpl; rewrite discard_log;
    first [ apply isRepoReachable_log | apply getRepoBranchList_log
          | apply getRepoFileList_log | apply getRepoLanguageList_log
          | apply isFilePresent_log | apply getFileContent_log ].
Qed.

Lemma perform_total this c : Total (perform this c).
Proof.
  destruct c; simpl; unfold discard;
    (apply Total_bind; [|intros; apply Total_ret]);
    try (apply Total_try_catch; intros; apply Total_ret).
  unfold isRepoReachable. cbv zeta. apply Total_bind.
  - apply Total_try_catch. intros e.
    destruct (strict_eq_num _ 429); [apply Total_ret|].
    destruct (strict_eq_num _ 403); [apply Total_ret|].
    destruct (strict_eq_num _ 404); apply Total_ret.
  - intros [st|]; apply Total_ret.
Qed.

Lemma perform_step this c net tr :
  perform this c net tr = (fst (fetchJson this (call_url this c) net tr), Return tt).
Proof.
  rewrite <- perform_log. destruct (perform_total this c net tr) as [[] H].
  destruct (perform this c net tr) as [tr' r]; simpl in *. rewrite H. reflexivity.
Qed.

(** X1. On an adapter whose header derivation succeeds, a session of calls
    never throws and sends exactly one GET per call, in call order, to the
    URL of the call, carrying [Accept: application/json] followed by the
    derived headers. *)
Theorem session_sends_one_request_per_call :
  forall this headers,
    getAuthProvider this = Return headers ->
    forall calls net tr,
      session this calls net tr
      = ((tr ++ map (fun c => request_of (call_url this c) headers) calls)%list,
         Return tt).
Proof.
  intros this headers Ha calls. induction calls as [|c rest IH]; intros net tr; simpl.
  - unfold ret. rewrite app_nil_r. reflexivity.
  - unfold bind. rewrite perform_step, fetchJson_log, Ha. rewrite IH.
    rewrite <- app_assoc. reflexivity.
Qed.

Lemma session_sends_one_request_per_call_witness :
  session Scenario.basic_auth_adapter
    [CallGetRepoBranchList; CallIsTektonFolderPresent] (Sample.always NetworkError) []
  = ([{| req_url := "https://api.bitbucket.org/2.0/repositories/org/repo/refs/branches";
         req_method := "GET";
         req_headers := [("Accept", "application/json");
                         ("Authorization", "Basic dXNlcjpwYXNz")] |};
      {| req_url := "https://api.bitbucket.org/2.0/repositories/org/repo/src/main/.tekton";
         req_method := "GET";
         req_headers := [("Accept", "application/json");
                         ("Authorization", "Basic dXNlcjpwYXNz")] |}],
     Return tt).
Proof.
  exact (session_sends_one_request_per_call Scenario.basic_auth_adapter
           (Some [("Authorization", "Basic dXNlcjpwYXNz")]) eq_refl
           [CallGetRepoBranchList; CallIsTektonFolderPresent]
           (Sample.always NetworkError) []).
Defined.

(** ** Missing credentials *)

Lemma getRepoBranchList_run this net :
  run (getRepoBranchList this) net =
  match run (fetchJson this (branches_url this)) net with
  | Throw _ => Return {| branches := [] |}
  | Return data =>
      match member data "values" with
      | Throw _ => Return {| branches := [] |}
      | Return vals =>
          match call_map vals (fun b => member b "name") with
          | Throw _ => Return {| branches := [] |}
          | Return names => Return {| branches := names |}
          end
      end
  end.
Proof.
  unfold getRepoBranchList, branches_url, run, bind, try_catch. cbv zeta.
  destruct (fetchJson this _ net []) as [tr' [data|e]]; simpl; [|reflexivity].
  destruct (member data "values") as [vals|e]; simpl; [|reflexivity].
  destruct (call_map vals _); reflexivity.
Qed.

Lemma getFileContent_run this path net :
  run (getFileContent this path) net =
  match run (fetchJson this (raw_url this (RepoMetadata.defaultBranch (metadata this))
                               (strip_leading_slash path))) net with
  | Return data => Return data
  | Throw _ => Return JNull
  end.
Proof.
  unfold getFileContent, raw_url, run, bind, try_catch. cbv zeta.
  destruct (fetchJson this _ net []) as [tr' [data|e]]; reflexivity.
Qed.

Lemma getAuthProvider_without_content this :
  GitSource.secretType (gitsource this) = Some BASIC_AUTH ->
  GitSource.secretContent (gitsource this) = None ->
  getAuthProvider this = Throw TypeError.
Proof. intros Ht Hc. unfold getAuthProvider. rewrite Ht, Hc. reflexivity. Qed.

Lemma fetchJson_without_headers this u net e :
  getAuthProvider this = Throw e -> run (fetchJson this u) net = Throw e.
Proof. intros Ha. unfold run. rewrite fetchJson_eq, Ha. reflexivity. Qed.

Lemma session_without_headers this e calls net tr :
  getAuthProvider this = Throw e -> session this calls net tr = (tr, Return tt).
Proof.
  intros Ha. revert tr. induction calls as [|c rest IH]; intros tr; simpl; [reflexivity|].
  unfold bind. rewrite perform_step, fetchJson_log, Ha. apply IH.
Qed.

(** X2. A basic-auth adapter whose credentials are missing sends no request
    at all, whatever is called on it, and every operation gives its
    failure value: [InvalidGitTypeSelected], the empty lists, [false] and
    [null]. *)
Theorem missing_credentials_degrade :
  forall this,
    GitSource.secretType (gitsource this) = Some BASIC_AUTH ->
    GitSource.secretContent (gitsource this) = None ->
    forall net,
      (forall calls, requests (session this calls) net = [])
      /\ run (isRepoReachable this) net = Return InvalidGitTypeSelected
      /\ run (getRepoBranchList this) net = Return {| branches := [] |}
      /\ (forall params, run (getRepoFileList this params) net = Return {| files := JArr [] |})
      /\ run (getRepoLanguageList this) net = Return {| languages := [] |}
      /\ (forall path, run (isFilePresent this path) net = Return false)
      /\ (forall path, run (getFileContent this path) net = Return JNull).
Proof.
  intros this Ht Hc net.
  pose proof (getAuthProvider_without_content this Ht Hc) as Ha.
  split; [|split; [|split; [|split; [|split; [|split]]]]].
  - intros calls. unfold requests. rewrite (session_without_headers _ _ _ _ _ Ha). reflexivity.
  - rewrite isRepoReachable_run, (fetchJson_without_headers _ _ _ _ Ha). reflexivity.
  - rewrite getRepoBranchList_run, (fetchJson_without_headers _ _ _ _ Ha). reflexivity.
  - intros params.
    rewrite getRepoFileList_run, (fetchJson_without_headers _ _ _ _ Ha). reflexivity.
  - rewrite getRepoLanguageList_run, (fetchJson_without_headers _ _ _ _ Ha). reflexivity.
  - intros path. rewrite isFilePresent_run, (fetchJson_without_headers _ _ _ _ Ha). reflexivity.
  - intros path. rewrite getFileContent_run, (fetchJson_without_headers _ _ _ _ Ha). reflexivity.
Qed.

Lemma missing_credentials_degrade_witness :
  (forall calls,
     requests (session Scenario.no_credentials_adapter calls)
              (Sample.always (Responded Scenario.branches_ok)) = [])
  /\ run (isRepoReachable Scenario.no_credentials_adapter)
         (Sample.always (Responded Scenario.branches_ok)) = Return InvalidGitTypeSelected
  /\ run (getRepoBranchList Scenario.no_credentials_adapter)
         (Sample.always (Responded Scenario.branches_ok)) = Return {| branches := [] |}
  /\ (forall params,
        run (getRepoFileList Scenario.no_credentials_adapter params)
            (Sample.always (Responded Scenario.branches_ok)) = Return {| files := JArr [] |})
  /\ run (getRepoLanguageList Scenario.no_credentials_adapter)
         (Sample.always (Responded Scenario.branches_ok)) = Return {| languages := [] |}
  /\ (forall path,
        run (isFilePresent Scenario.no_credentials_adapter path)
            (Sample.always (Responded Scenario.branches_ok)) = Return false)
  /\ (forall path,
        run (getFileContent Scenario.no_credentials_adapter path)
            (Sample.always (Responded Scenario.branches_ok)) = Return JNull).
Proof.
  exact (missing_credentials_degrade Scenario.no_credentials_adapter eq_refl eq_refl
           (Sample.always (Responded Scenario.branches_ok))).
Defined.

(** ** File content *)

Lemma fetchJson_text this u net r headers :
  getAuthProvider this = Return headers ->
  answers net (Responded r) ->
  (200 <= status r < 300)%Z ->
  contentType r = Some "text/plain" ->
  run (fetchJson this u) net = Return (JStr (bodyText r)).
Proof.
  intros Ha Hn Hs Hc. unfold run. rewrite fetchJson_eq, Ha. cbv zeta. simpl.
  rewrite (Hn _). apply ok_spec in Hs. rewrite Hs. simpl.
  apply opt_eq_str_spec in Hc. rewrite Hc. reflexivity.
Qed.

(** X3. [getFileContent] never throws.  It gives [null] whenever the fetch
    primitive fails; on a 200..299 response it gives the body text as a
    string when the content type is [text/plain], and otherwise the parsed
    JSON value of the body, not its text. *)
Theorem getFileContent_outcome :
  forall this path net,
    (exists v, run (getFileContent this path) net = Return v)
    /\ (forall o, answers net o -> fetch_fails o = true ->
          run (getFileContent this path) net = Return JNull)
    /\ (forall headers r,
          getAuthProvider this = Return headers ->
          answers net (Responded r) ->
          (200 <= status r < 300)%Z ->
          contentType r = Some "text/plain" ->
          run (getFileContent this path) net = Return (JStr (bodyText r)))
    /\ (forall headers r v,
          getAuthProvider this = Return headers ->
          answers net (Responded r) ->
          (200 <= status r < 300)%Z ->
          contentType r <> Some "text/plain" ->
          bodyJson r = Some v ->
          run (getFileContent this path) net = Return v).
Proof.
  intros this path net. rewrite getFileContent_run.
  split; [|split; [|split]].
  - destruct (run (fetchJson this _) net) as [d|e]; eexists; reflexivity.
  - intros o Hn Hf.
    match goal with
    | |- context [run (fetchJson ?t ?u) ?n] =>
        destruct (fetchJson_fails t u n o Hn Hf) as [e He]
    end.
    rewrite He. reflexivity.
  - intros headers r Ha Hn Hs Hc.
    match goal with
    | |- context [run (fetchJson ?t ?u) ?n] =>
        rewrite (fetchJson_text t u n r headers Ha Hn Hs Hc)
    end.
    reflexivity.
  - intros headers r v Ha Hn Hs Hc Hb.
    match goal with
    | |- context [run (fetchJson ?t ?u) ?n] =>
        rewrite (fetchJson_json t u n r headers v Ha Hn Hs Hc Hb)
    end.
    reflexivity.
Qed.

Lemma getFileContent_outcome_witness :
  run (getFileContent Scenario.saas_adapter "/Dockerfile")
      (Sample.always (Responded Scenario.server_error)) = Return JNull
  /\ run (getFileContent Scenario.saas_adapter "/Dockerfile")
         (Sample.always (Responded Scenario.plain_text)) = Return (JStr "FROM scratch")
  /\ run (getFileContent Scenario.saas_adapter "/package.json")
         (Sample.always (Responded Scenario.empty_object)) = Return (JObj []).
Proof.
  split; [|split].
  - destruct (getFileContent_outcome Scenario.saas_adapter "/Dockerfile"
                (Sample.always (Responded Scenario.server_error))) as [_ [H _]].
    apply (H (Responded Scenario.server_error)); [intros req; reflexivity | reflexivity].
  - destruct (getFileContent_outcome Scenario.saas_adapter "/Dockerfile"
                (Sample.always (Responded Scenario.plain_text))) as [_ [_ [H _]]].
    apply (H None Scenario.plain_text);
      [reflexivity | intros req; reflexivity | simpl; lia | reflexivity].
  - destruct (getFileContent_outcome Scenario.saas_adapter "/package.json"
                (Sample.always (Responded Scenario.empty_object))) as [_ [_ [_ H]]].
    apply (H None Scenario.empty_object (JObj []));
      [reflexivity | intros req; reflexivity | simpl; lia | discriminate | reflexivity].
Defined.

(** X4. The existence check and the content read of one path send the same
    request and agree on failure: when the file is reported absent its
    content is [null], and a content other than [null] means the file is
    reported present.  The converse does not hold: a file whose body is
    the JSON [null] is present and its content reads as [null]. *)
Theorem presence_and_content_agree :
  (forall this path net,
     requests (isFilePresent this path) net = requests (getFileContent this path) net
     /\ (run (isFilePresent this path) net = Return false ->
         run (getFileContent this path) net = Return JNull)
     /\ (forall v, run (getFileContent this path) net = Return v -> v <> JNull ->
         run (isFilePresent this path) net = Return true))
  /\
  (run (isFilePresent Scenario.saas_adapter "/data.json")
       (Sample.always (Responded Scenario.null_body)) = Return true
   /\ run (getFileContent Scenario.saas_adapter "/data.json")
          (Sample.always (Responded Scenario.null_body)) = Return JNull).
Proof.
  split; [|split; reflexivity].
  intros this path net. split; [|split].
  - unfold requests. rewrite isFilePresent_log, getFileContent_log. reflexivity.
  - rewrite isFilePresent_run, getFileContent_run.
    destruct (run (fetchJson this _) net); [discriminate | reflexivity].
  - intros v. rewrite isFilePresent_run, getFileContent_run.
    destruct (run (fetchJson this _) net) as [d|e]; intros H Hv; [reflexivity|].
    inversion H. congruence.
Qed.

Lemma presence_and_content_agree_witness :
  run (getFileContent Scenario.saas_adapter "/Dockerfile")
      (Sample.always (Responded Scenario.dockerfile_bytes)) = Return JNull
  /\ run (isFilePresent Scenario.saas_adapter "/Dockerfile")
         (Sample.always (Responded Scenario.plain_text)) = Return true.
Proof.
  destruct presence_and_content_agree as [H _].
  split.
  - apply (H Scenario.saas_adapter "/Dockerfile"
             (Sample.always (Responded Scenario.dockerfile_bytes))). reflexivity.
  - apply (proj2 (proj2 (H Scenario.saas_adapter "/Dockerfile"
                           (Sample.always (Responded Scenario.plain_text))))
             (JStr "FROM scratch")); [reflexivity | discriminate].
Defined.

(** ** Reachability, from the result back to the response *)

(** X5. The reachability check reports [Reachable] only when the fetch
    primitive succeeded with an object whose own [slug] is the repository
    name as a string, and [Unreachable] only when it succeeded with a body
    whose [slug] could be read and is something else; neither is ever
    reported for a failed request. *)
Theorem reachable_only_on_matching_slug :
  forall this net,
    let fetched := run (fetchJson this (repo_url this)) net in
    let result := run (isRepoReachable this) net in
    (result = Return Reachable <->
     exists fields,
       fetched = Return (JObj fields) /\
       own fields "slug" = Some (JStr (RepoMetadata.repoName (metadata this))))
    /\
    (result = Return Unreachable <->
     exists data slug,
       fetched = Return data /\ member data "slug" = Return slug /\
       slug <> JStr (RepoMetadata.repoName (metadata this))).
Proof.
  intros this net fetched result.
  assert (Hrun := isRepoReachable_run this net). fold fetched result in Hrun.
  rewrite Hrun. clear Hrun. split; split.
  - destruct fetched as [data|e].
    + destruct (member data "slug") as [slug|e] eqn:Hm; [|discriminate].
      destruct (strict_eq_str slug _) eqn:Hs; [|discriminate].
      apply strict_eq_str_spec in Hs. subst slug. intros _.
      destruct data; simpl in Hm; try discriminate.
      exists fields. split; [reflexivity|].
      destruct (own fields "slug"); [congruence | discriminate].
    + destruct (strict_eq_num _ 429); [discriminate|].
      destruct (strict_eq_num _ 403); [discriminate|].
      destruct (strict_eq_num _ 404); discriminate.
  - intros [fields [Hf Ho]]. rewrite Hf. simpl. rewrite Ho. simpl.
    rewrite String.eqb_refl. reflexivity.
  - destruct fetched as [data|e].
    + destruct (member data "slug") as [slug|e] eqn:Hm; [|discriminate].
      destruct (strict_eq_str slug _) eqn:Hs; [discriminate|]. intros _.
      exists data, slug. split; [reflexivity|]. split; [exact Hm|].
      intros ->. simpl in Hs. rewrite String.eqb_refl in Hs. discriminate.
    + destruct (strict_eq_num _ 429); [discriminate|].
      destruct (strict_eq_num _ 403); [discriminate|].
      destruct (strict_eq_num _ 404); discriminate.
  - intros [data [slug [Hf [Hm Hne]]]]. rewrite Hf, Hm.
    destruct (strict_eq_str slug _) eqn:Hs; [|reflexivity].
    apply strict_eq_str_spec in Hs. contradiction.
Qed.

Lemma reachable_only_on_matching_slug_witness :
  run (isRepoReachable Scenario.saas_adapter)
      (Sample.always (Responded (Sample.json_response 200 (JObj [("slug", JStr "repo")]))))
  = Return Reachable.
Proof.
  apply (proj2 (proj1 (reachable_only_on_matching_slug Scenario.saas_adapter
                         (Sample.always (Responded (Sample.json_response 200
                                                      (JObj [("slug", JStr "repo")]))))))).
  exists [("slug", JStr "repo")]. split; reflexivity.
Defined.

(** ** Mapping the entries of a listing *)

Lemma member_read v k : nullish v = false -> member v k = Return (read v k).
Proof. unfold read. destruct v; simpl; intros H; try discriminate; reflexivity. Qed.

Lemma member_nullish v k : nullish v = true -> member v k = Throw TypeError.
Proof. destruct v; simpl; intros H; try discriminate; reflexivity. Qed.

Lemma map_items_all k items :
  Forall (fun x => nullish x = false) items ->
  map_items (fun b => member b k) items = Return (map (fun b => read b k) items).
Proof.
  induction 1 as [|x rest Hx _ IH]; simpl; [reflexivity|].
  rewrite (member_read _ _ Hx), IH. reflexivity.
Qed.

Lemma map_items_some_nullish k items :
  Exists (fun x => nullish x = true) items ->
  map_items (fun b => member b k) items = Throw TypeError.
Proof.
  induction 1 as [x rest Hx | x rest _ IH]; simpl.
  - rewrite (member_nullish _ _ Hx). reflexivity.
  - destruct (member x k) as [y|e] eqn:Hm.
    + rewrite IH. reflexivity.
    + destruct x; simpl in Hm; inversion Hm; reflexivity.
Qed.

(** X6. When the branch endpoint answers with an object whose [values] is
    an array, the branch list is the [name] of every entry, in order
    ([undefined] for an entry without one), provided no entry is [null];
    one [null] entry makes the whole list empty, and so does a [values]
    that is not an array. *)
Theorem branch_list_names :
  forall this net data vals,
    run (fetchJson this (branches_url this)) net = Return data ->
    member data "values" = Return vals ->
    (forall items, vals = JArr items ->
       Forall (fun b => nullish b = false) items ->
       run (getRepoBranchList this) net
       = Return {| branches := map (fun b => read b "name") items |})
    /\
    (forall items, vals = JArr items ->
       Exists (fun b => nullish b = true) items ->
       run (getRepoBranchList this) net = Return {| branches := [] |})
    /\
    ((forall items, vals <> JArr items) ->
     run (getRepoBranchList this) net = Return {| branches := [] |}).
Proof.
  intros this net data vals Hf Hm. rewrite getRepoBranchList_run, Hf, Hm.
  split; [|split].
  - intros items -> Hall. simpl. rewrite (map_items_all _ _ Hall). reflexivity.
  - intros items -> Hex. simpl. rewrite (map_items_some_nullish _ _ Hex). reflexivity.
  - intros Hno. destruct vals; try reflexivity. exfalso. apply (Hno items). reflexivity.
Qed.

Lemma branch_list_names_witness :
  run (getRepoBranchList Scenario.saas_adapter) (Scenario.answering Scenario.partly_named)
  = Return {| branches := [JStr "main"; JUndefined] |}
  /\ run (getRepoBranchList Scenario.saas_adapter)
         (Scenario.answering Scenario.with_null_branch)
     = Return {| branches := [] |}
  /\ run (getRepoBranchList Scenario.saas_adapter)
         (Scenario.answering Scenario.values_as_text)
     = Return {| branches := [] |}.
Proof.
  split; [|split].
  - apply (proj1 (branch_list_names Scenario.saas_adapter
                    (Scenario.answering Scenario.partly_named) Scenario.partly_named
                    (JArr [JObj [("name", JStr "main")]; JObj []]) eq_refl eq_refl)
             [JObj [("name", JStr "main")]; JObj []] eq_refl).
    repeat constructor.
  - apply (proj1 (proj2 (branch_list_names Scenario.saas_adapter
                    (Scenario.answering Scenario.with_null_branch) Scenario.with_null_branch
                    (JArr [JObj [("name", JStr "main")]; JNull]) eq_refl eq_refl))
             [JObj [("name", JStr "main")]; JNull] eq_refl).
    apply Exists_cons_tl. apply Exists_cons_hd. reflexivity.
  - apply (proj2 (proj2 (branch_list_names Scenario.saas_adapter
                    (Scenario.answering Scenario.values_as_text) Scenario.values_as_text
                    (JStr "Dockerfile") eq_refl eq_refl))).
    intros items. discriminate.
Defined.

(** X7. On a successful directory listing with a readable [values]: in
    self-hosted mode the file list is that member exactly as received,
    whatever it is; in SaaS mode it is the [path] of every entry, in order,
    when [values] is an array without [null] entries, and the empty list
    when an entry is [null] or [values] is not an array. *)
Theorem file_list_normalisation :
  forall this params net data vals,
    run (fetchJson this (listing_url this (RepoMetadata.defaultBranch (metadata this))
                           (requested_path params))) net = Return data ->
    member data "values" = Return vals ->
    (isServer this = true ->
     run (getRepoFileList this params) net = Return {| files := vals |})
    /\
    (isServer this = false ->
     forall items, vals = JArr items ->
       Forall (fun f => nullish f = false) items ->
       run (getRepoFileList this params) net
       = Return {| files := JArr (map (fun f => read f "path") items) |})
    /\
    (isServer this = false ->
     forall items, vals = JArr items ->
       Exists (fun f => nullish f = true) items ->
       run (getRepoFileList this params) net = Return {| files := JArr [] |})
    /\
    (isServer this = false ->
     (forall items, vals <> JArr items) ->
     run (getRepoFileList this params) net = Return {| files := JArr [] |}).
Proof.
  intros this params net data vals Hf Hm. rewrite getRepoFileList_run, Hf, Hm.
  split; [|split; [|split]]; intros Hs; rewrite Hs.
  - reflexivity.
  - intros items -> Hall. unfold opt_call_map. simpl.
    rewrite (map_items_all _ _ Hall). reflexivity.
  - intros items -> Hex. unfold opt_call_map. simpl.
    rewrite (map_items_some_nullish _ _ Hex). reflexivity.
  - intros Hno. destruct vals; try reflexivity. exfalso. apply (Hno items). reflexivity.
Qed.

Lemma file_list_normalisation_witness :
  run (getRepoFileList Scenario.server_adapter None)
      (Scenario.answering Scenario.values_as_text)
  = Return {| files := JStr "Dockerfile" |}
  /\ run (getRepoFileList Scenario.saas_adapter None)
         (Scenario.answering Scenario.partly_pathed)
     = Return {| files := JArr [JStr "src"; JUndefined] |}
  /\ run (getRepoFileList Scenario.saas_adapter None)
         (Scenario.answering Scenario.with_null_file)
     = Return {| files := JArr [] |}
  /\ run (getRepoFileList Scenario.saas_adapter None)
         (Scenario.answering Scenario.values_as_text)
     = Return {| files := JArr [] |}.
Proof.
  split; [|split; [|split]].
  - apply (proj1 (file_list_normalisation Scenario.server_adapter None
                    (Scenario.answering Scenario.values_as_text) Scenario.values_as_text
                    (JStr "Dockerfile") eq_refl eq_refl)).
    reflexivity.
  - apply (proj1 (proj2 (file_list_normalisation Scenario.saas_adapter None
                    (Scenario.answering Scenario.partly_pathed) Scenario.partly_pathed
                    (JArr [JObj [("path", JStr "src")]; JStr "x"]) eq_refl eq_refl))
             eq_refl [JObj [("path", JStr "src")]; JStr "x"] eq_refl).
    repeat constructor.
  - apply (proj1 (proj2 (proj2 (file_list_normalisation Scenario.saas_adapter None
                    (Scenario.answering Scenario.with_null_file) Scenario.with_null_file
                    (JArr [JNull]) eq_refl eq_refl)))
             eq_refl [JNull] eq_refl).
    apply Exists_cons_hd. reflexivity.
  - apply (proj2 (proj2 (proj2 (file_list_normalisation Scenario.saas_adapter None
                    (Scenario.answering Scenario.values_as_text) Scenario.values_as_text
                    (JStr "Dockerfile") eq_refl eq_refl))) eq_refl).
    intros items. discriminate.
Defined.

(** ** The repository metadata *)



Lemma truthy_or_empty s : (if str_truthy s then s else "") = s.
Proof. destruct s; reflexivity. Qed.



(** ** Files below the context directory *)

Lemma with_contextDir_fields parse gs x :
  let a := new_BitbucketService parse (with_contextDir gs x) in
  let b := new_BitbucketService parse gs in
  isServer a = isServer b
  /\ baseURL a = baseURL b
  /\ RepoMetadata.owner (metadata a) = RepoMetadata.owner (metadata b)
  /\ RepoMetadata.repoName (metadata a) = RepoMetadata.repoName (metadata b)
  /\ RepoMetadata.defaultBranch (metadata a) = RepoMetadata.defaultBranch (metadata b)
  /\ RepoMetadata.dockerfilePath (metadata a) = RepoMetadata.dockerfilePath (metadata b)
  /\ RepoMetadata.devfilePath (metadata a) = RepoMetadata.devfilePath (metadata b)
  /\ getAuthProvider a = getAuthProvider b
  /\ RepoMetadata.contextDir (metadata a)
     = match x with Some d => strip_trailing_slash d | None => "" end.
Proof.
  unfold new_BitbucketService, getRepoMetadata, getAuthProvider. simpl.
  destruct (negb (String.eqb (ParsedUrl.host (parse (GitSource.url gs))) "bitbucket.org"));
    simpl; repeat split; destruct x; try reflexivity; apply truthy_or_empty.
Qed.

Lemma raw_url_cong a b branch branch' fp fp' :
  isServer a = isServer b -> baseURL a = baseURL b ->
  RepoMetadata.owner (metadata a) = RepoMetadata.owner (metadata b) ->
  RepoMetadata.repoName (metadata a) = RepoMetadata.repoName (metadata b) ->
  branch = branch' -> fp = fp' ->
  raw_url a branch fp = raw_url b branch' fp'.
Proof.
  intros Hs Hb Ho Hn -> ->. unfold raw_url. cbv zeta. rewrite Hs, Hb, Ho, Hn. reflexivity.
Qed.

Lemma isFilePresent_cong a b p p' :
  getAuthProvider a = getAuthProvider b ->
  raw_url a (RepoMetadata.defaultBranch (metadata a)) (strip_leading_slash p)
  = raw_url b (RepoMetadata.defaultBranch (metadata b)) (strip_leading_slash p') ->
  isFilePresent a p = isFilePresent b p'.
Proof.
  intros Ha Hu. unfold isFilePresent. unfold raw_url in Hu. cbv zeta in *.
  rewrite Hu, (fetchJson_same_auth a b _ Ha). reflexivity.
Qed.

Lemma getFileContent_cong a b p p' :
  getAuthProvider a = getAuthProvider b ->
  raw_url a (RepoMetadata.defaultBranch (metadata a)) (strip_leading_slash p)
  = raw_url b (RepoMetadata.defaultBranch (metadata b)) (strip_leading_slash p') ->
  getFileContent a p = getFileContent b p'.
Proof.
  intros Ha Hu. unfold getFileContent. unfold raw_url in Hu. cbv zeta in *.
  rewrite Hu, (fetchJson_same_auth a b _ Ha). reflexivity.
Qed.

Lemma strip_leading_slash_other c rest :
  c <> "/"%char -> strip_leading_slash (String c rest) = String c rest.
Proof.
  intros Hc. simpl.
  destruct c as [[] [] [] [] [] [] [] []]; try reflexivity. congruence.
Qed.

Lemma leading_slash_of_context d leaf :
  (forall rest, d <> String "/" rest) ->
  strip_leading_slash (strip_trailing_slash ("/" ++ d) ++ "/" ++ leaf)
  = strip_leading_slash (strip_trailing_slash d ++ "/" ++ leaf).
Proof.
  intros Hno. destruct d as [|c r]; [reflexivity|].
  assert (Hc : c <> "/"%char) by (intros ->; apply (Hno r); reflexivity).
  change (strip_trailing_slash ("/" ++ String c r))
    with (String "/" (strip_trailing_slash (String c r))).
  assert (Hhead : exists t, strip_trailing_slash (String c r) = String c t).
  { destruct r as [|c' r'].
    - simpl. destruct (Ascii.eqb_spec c "/"%char); [contradiction|]. eexists; reflexivity.
    - eexists. reflexivity. }
  destruct Hhead as [t Ht]. rewrite Ht.
  change (strip_leading_slash (String "/" (String c t ++ "/" ++ leaf)))
    with (String c t ++ "/" ++ leaf).
  symmetry. apply (strip_leading_slash_other c (t ++ "/" ++ leaf) Hc).
Qed.

(** X9. The lookups below the context directory (Dockerfile, Devfile,
    [.tekton], [package.json]) do not depend on a leading slash of the
    context directory: an adapter built with ["/" ++ d] behaves on all six
    exactly as one built with [d], for every [d] that does not itself
    start with a slash. *)
Theorem context_leading_slash_is_ignored :
  forall parse gs d,
    (forall rest, d <> String "/" rest) ->
    let a := new_BitbucketService parse (with_contextDir gs (Some ("/" ++ d))) in
    let b := new_BitbucketService parse (with_contextDir gs (Some d)) in
    isDockerfilePresent a = isDockerfilePresent b
    /\ isDevfilePresent a = isDevfilePresent b
    /\ isTektonFolderPresent a = isTektonFolderPresent b
    /\ getDockerfileContent a = getDockerfileContent b
    /\ getDevfileContent a = getDevfileContent b
    /\ getPackageJsonContent a = getPackageJsonContent b.
Proof.
  intros parse gs d Hno a b.
  destruct (with_contextDir_fields parse gs (Some ("/" ++ d)))
    as [Hs [Hb [Ho [Hn [Hbr [Hdk [Hdv [Ha Hc]]]]]]]].
  destruct (with_contextDir_fields parse gs (Some d))
    as [Hs' [Hb' [Ho' [Hn' [Hbr' [Hdk' [Hdv' [Ha' Hc']]]]]]]].
  fold a in Hs, Hb, Ho, Hn, Hbr, Hdk, Hdv, Ha, Hc.
  fold b in Hs', Hb', Ho', Hn', Hbr', Hdk', Hdv', Ha', Hc'.
  assert (Hurl : forall leaf,
             raw_url a (RepoMetadata.defaultBranch (metadata a))
               (strip_leading_slash (RepoMetadata.contextDir (metadata a) ++ "/" ++ leaf))
             = raw_url b (RepoMetadata.defaultBranch (metadata b))
                 (strip_leading_slash (RepoMetadata.contextDir (metadata b) ++ "/" ++ leaf))).
  { intros leaf. apply raw_url_cong; try congruence.
    rewrite Hc, Hc'. apply leading_slash_of_context. exact Hno. }
  assert (Hauth : getAuthProvider a = getAuthProvider b) by congruence.
  unfold isDockerfilePresent, isDevfilePresent, isTektonFolderPresent,
    getDockerfileContent, getDevfileContent, getPackageJsonContent.
  rewrite Hdk, Hdv, <- Hdk', <- Hdv'.
  repeat split;
    first [ apply isFilePresent_cong | apply getFileContent_cong ];
    first [ exact Hauth | apply Hurl ].
Qed.

Lemma context_leading_slash_is_ignored_witness :
  isTektonFolderPresent
    (new_BitbucketService Sample.parse
       (with_contextDir (Sample.gitsource_of "https://bitbucket.org/org/repo" (Some "main"))
          (Some "/services/api")))
  = isTektonFolderPresent
      (new_BitbucketService Sample.parse
         (with_contextDir (Sample.gitsource_of "https://bitbucket.org/org/repo" (Some "main"))
            (Some "services/api"))).
Proof.
  apply (context_leading_slash_is_ignored Sample.parse
           (Sample.gitsource_of "https://bitbucket.org/org/repo" (Some "main"))
           "services/api").
  intros rest. discriminate.
Defined.

Example tekton_url_below_context :
  requests
    (isTektonFolderPresent
       (new_BitbucketService Sample.parse
          (with_contextDir (Sample.gitsource_of "https://bitbucket.org/org/repo" (Some "main"))
             (Some "/services/api/"))))
    (Sample.always NetworkError)
  = [request_of "https://api.bitbucket.org/2.0/repositories/org/repo/src/main/services/api/.tekton"
       None].
Proof. reflexivity. Qed.

Lemma metadata_paths parse gs :
  RepoMetadata.dockerfilePath (metadata (new_BitbucketService parse gs))
  = GitSource.dockerfilePath gs
  /\ RepoMetadata.devfilePath (metadata (new_BitbucketService parse gs))
     = GitSource.devfilePath gs.
Proof. rewrite constructor_metadata. split; reflexivity. Qed.

Lemma isFilePresent_requests this path net headers :
  getAuthProvider this = Return headers ->
  requests (isFilePresent this path) net
  = [request_of (raw_url this (RepoMetadata.defaultBranch (metadata this))
                   (strip_leading_slash path)) headers].
Proof.
  intros Ha. unfold requests. rewrite isFilePresent_log, fetchJson_log, Ha. reflexivity.
Qed.

Lemma getFileContent_requests this path net headers :
  getAuthProvider this = Return headers ->
  requests (getFileContent this path) net
  = [request_of (raw_url this (RepoMetadata.defaultBranch (metadata this))
                   (strip_leading_slash path)) headers].
Proof.
  intros Ha. unfold requests. rewrite getFileContent_log, fetchJson_log, Ha. reflexivity.
Qed.

(** X10. Without a context directory the lookups go to the root of the
    repository: [.tekton], [package.json] and the Dockerfile and Devfile
    paths exactly as given.  A descriptor that has no Dockerfile (or
    Devfile) path makes the adapter ask for a file named [undefined]. *)
Theorem lookups_at_repository_root :
  forall parse gs headers,
    GitSource.contextDir gs = None ->
    let this := new_BitbucketService parse gs in
    let at_root (leaf : string) :=
      [request_of (raw_url this (RepoMetadata.defaultBranch (metadata this)) leaf) headers] in
    getAuthProvider this = Return headers ->
    forall net,
      requests (isTektonFolderPresent this) net = at_root ".tekton"
      /\ requests (getPackageJsonContent this) net = at_root "package.json"
      /\ (forall f, GitSource.dockerfilePath gs = Some f ->
            requests (isDockerfilePresent this) net = at_root f
            /\ requests (getDockerfileContent this) net = at_root f)
      /\ (forall f, GitSource.devfilePath gs = Some f ->
            requests (isDevfilePresent this) net = at_root f
            /\ requests (getDevfileContent this) net = at_root f)
      /\ (GitSource.dockerfilePath gs = None ->
            requests (isDockerfilePresent this) net = at_root "undefined"
            /\ requests (getDockerfileContent this) net = at_root "undefined")
      /\ (GitSource.devfilePath gs = None ->
            requests (isDevfilePresent this) net = at_root "undefined"
            /\ requests (getDevfileContent this) net = at_root "undefined").
Proof.
  intros parse gs headers Hctx this at_root Ha net.
  assert (Hc : RepoMetadata.contextDir (metadata this) = "").
  { unfold this. rewrite constructor_metadata. unfold getRepoMetadata. simpl.
    rewrite Hctx. reflexivity. }
  destruct (metadata_paths parse gs) as [Hdk Hdv]. fold this in Hdk, Hdv.
  unfold isTektonFolderPresent, getPackageJsonContent, isDockerfilePresent,
    getDockerfileContent, isDevfilePresent, getDevfileContent.
  rewrite Hc, Hdk, Hdv.
  split; [|split; [|split; [|split; [|split]]]].
  - rewrite (isFilePresent_requests _ _ _ _ Ha). reflexivity.
  - rewrite (getFileContent_requests _ _ _ _ Ha). reflexivity.
  - intros f ->.
    rewrite (isFilePresent_requests _ _ _ _ Ha), (getFileContent_requests _ _ _ _ Ha).
    split; reflexivity.
  - intros f ->.
    rewrite (isFilePresent_requests _ _ _ _ Ha), (getFileContent_requests _ _ _ _ Ha).
    split; reflexivity.
  - intros ->.
    rewrite (isFilePresent_requests _ _ _ _ Ha), (getFileContent_requests _ _ _ _ Ha).
    split; reflexivity.
  - intros ->.
    rewrite (isFilePresent_requests _ _ _ _ Ha), (getFileContent_requests _ _ _ _ Ha).
    split; reflexivity.
Qed.

Lemma lookups_at_repository_root_witness :
  requests (isTektonFolderPresent Scenario.server_adapter) (Sample.always NetworkError)
  = [request_of "https://git.example.com/rest/api/1.0/projects/org/repos/repo/raw/.tekton?at=HEAD"
       None]
  /\ requests (isDockerfilePresent Scenario.server_adapter) (Sample.always NetworkError)
     = [request_of "https://git.example.com/rest/api/1.0/projects/org/repos/repo/raw/undefined?at=HEAD"
          None].
Proof.
  pose proof (lookups_at_repository_root Sample.parse
                (Sample.gitsource_of "https://git.example.com/org/repo" None) None
                eq_refl eq_refl (Sample.always NetworkError)) as H.
  split.
  - exact (proj1 H).
  - exact (proj1 (proj1 (proj2 (proj2 (proj2 (proj2 H)))) eq_refl)).
Defined.

(** ** Directory listings and the context directory *)

Lemma append_inj_l (a x y : string) : a ++ x = a ++ y -> x = y.
Proof.
  induction a as [|c a IH]; simpl; intros H; [exact H|].
  inversion H. apply IH. assumption.
Qed.

Lemma getRepoFileList_requests this params net headers :
  getAuthProvider this = Return headers ->
  requests (getRepoFileList this params) net
  = [request_of (listing_url this (RepoMetadata.defaultBranch (metadata this))
                   (requested_path params)) headers].
Proof.
  intros Ha. unfold requests. rewrite getRepoFileList_log, fetchJson_log, Ha. reflexivity.
Qed.

Lemma listing_url_context a b sub c t :
  isServer a = isServer b -> baseURL a = baseURL b ->
  RepoMetadata.owner (metadata a) = RepoMetadata.owner (metadata b) ->
  RepoMetadata.repoName (metadata a) = RepoMetadata.repoName (metadata b) ->
  RepoMetadata.defaultBranch (metadata a) = RepoMetadata.defaultBranch (metadata b) ->
  RepoMetadata.contextDir (metadata a) = String "/" (String c t) ->
  RepoMetadata.contextDir (metadata b) = String c t ->
  c <> "/"%char ->
  listing_url a (RepoMetadata.defaultBranch (metadata a)) sub
  = listing_url b (RepoMetadata.defaultBranch (metadata b)) sub ->
  False.
Proof.
  intros Hs Hb Ho Hn Hbr Hca Hcb Hc Hu.
  unfold listing_url in Hu. cbv zeta in Hu.
  rewrite Hs, Hb, Ho, Hn, Hbr, Hca, Hcb in Hu.
  destruct sub as [p|]; destruct (isServer b);
    repeat (apply append_inj_l in Hu);
    simpl in Hu; inversion Hu; congruence.
Qed.

(** X11. The directory listing, unlike the lookups below the context
    directory, keeps a leading slash of the context directory: for a
    non-empty [d] that does not start with a slash, the adapter built with
    ["/" ++ d] asks for another URL than the one built with [d]. *)
Theorem listing_keeps_context_leading_slash :
  forall parse gs d headers,
    d <> "" ->
    (forall rest, d <> String "/" rest) ->
    let a := new_BitbucketService parse (with_contextDir gs (Some ("/" ++ d))) in
    let b := new_BitbucketService parse (with_contextDir gs (Some d)) in
    getAuthProvider a = Return headers ->
    forall params net,
      requests (getRepoFileList a params) net <> requests (getRepoFileList b params) net.
Proof.
  intros parse gs d headers Hne Hno a b Ha params net.
  destruct (with_contextDir_fields parse gs (Some ("/" ++ d)))
    as [Hs [Hb [Ho [Hn [Hbr [_ [_ [Hau Hc]]]]]]]].
  destruct (with_contextDir_fields parse gs (Some d))
    as [Hs' [Hb' [Ho' [Hn' [Hbr' [_ [_ [Hau' Hc']]]]]]]].
  fold a in Hs, Hb, Ho, Hn, Hbr, Hau, Hc. fold b in Hs', Hb', Ho', Hn', Hbr', Hau', Hc'.
  assert (Hb_auth : getAuthProvider b = Return headers) by congruence.
  rewrite (getRepoFileList_requests a params net headers Ha).
  rewrite (getRepoFileList_requests b params net headers Hb_auth).
  intros Heq. inversion Heq as [Hu].
  destruct d as [|c r]; [contradiction|].
  assert (Hch : c <> "/"%char) by (intros ->; apply (Hno r); reflexivity).
  assert (Hhead : exists t, strip_trailing_slash (String c r) = String c t).
  { destruct r as [|c' r'].
    - simpl. destruct (Ascii.eqb_spec c "/"%char); [contradiction|]. eexists; reflexivity.
    - eexists. reflexivity. }
  destruct Hhead as [t Ht].
  apply (listing_url_context a b (requested_path params) c t); try congruence.
  rewrite Hc.
  change (strip_trailing_slash ("/" ++ String c r))
    with (String "/" (strip_trailing_slash (String c r))).
  rewrite Ht. reflexivity.
Qed.

Lemma listing_keeps_context_leading_slash_witness :
  requests
    (getRepoFileList
       (new_BitbucketService Sample.parse
          (with_contextDir (Sample.gitsource_of "https://bitbucket.org/org/repo" (Some "main"))
             (Some "/services")))
       None)
    (Sample.always NetworkError)
  <> requests
       (getRepoFileList
          (new_BitbucketService Sample.parse
             (with_contextDir (Sample.gitsource_of "https://bitbucket.org/org/repo" (Some "main"))
                (Some "services")))
          None)
       (Sample.always NetworkError).
Proof.
  apply (listing_keeps_context_leading_slash Sample.parse
           (Sample.gitsource_of "https://bitbucket.org/org/repo" (Some "main"))
           "services" None).
  - discriminate.
  - intros rest. discriminate.
  - reflexivity.
Defined.

Example listing_url_with_leading_slash :
  requests
    (getRepoFileList
       (new_BitbucketService Sample.parse
          (with_contextDir (Sample.gitsource_of "https://bitbucket.org/org/repo" (Some "main"))
             (Some "/services")))
       (Some {| specificPath := Some "api" |}))
    (Sample.always NetworkError)
  = [request_of
       "https://api.bitbucket.org/2.0/repositories/org/repo/src/main//services/api?pagelen=50"
       None].
Proof. reflexivity. Qed.

(** ** The listing helper called with the other mode's flag *)

Lemma prefix_cong_eq (a p s : string) :
  String.prefix (a ++ p) (a ++ s) = String.prefix p s.
Proof.
  induction a as [|c a IH]; simpl; [reflexivity|].
  destruct (ascii_dec c c); [exact IH | congruence].
Qed.

(** X12. [isServerURL] takes the endpoint shape from its flag and the base
    path from the adapter.  Called on a self-hosted adapter with the SaaS
    flag it builds a [/repositories/...] URL on the self-hosted base path,
    outside the adapter's own [/projects/...] root; called on a SaaS
    adapter with the self-hosted flag it builds a [/projects/...] URL on
    [https://api.bitbucket.org/2.0]. *)
Theorem listing_helper_follows_its_flag :
  forall parse gs sp,
    let parsed := parse (GitSource.url gs) in
    let this := new_BitbucketService parse gs in
    (ParsedUrl.host parsed <> "bitbucket.org" ->
     String.prefix
       (("https://" ++ ParsedUrl.host parsed ++ "/rest/api/1.0")
        ++ "/repositories/" ++ ParsedUrl.owner parsed ++ "/" ++ ParsedUrl.name parsed)
       (isServerURL this false sp) = true
     /\ String.prefix (server_root this) (isServerURL this false sp) = false)
    /\
    (ParsedUrl.host parsed = "bitbucket.org" ->
     String.prefix
       ("https://api.bitbucket.org/2.0"
        ++ "/projects/" ++ ParsedUrl.owner parsed ++ "/repos/" ++ ParsedUrl.name parsed)
       (isServerURL this true sp) = true
     /\ String.prefix (saas_root this) (isServerURL this true sp) = false).
Proof.
  intros parse gs sp parsed this.
  assert (Hmd : metadata this = getRepoMetadata parse gs) by apply constructor_metadata.
  split; intros Hh.
  - destruct (constructor_server parse gs Hh) as [_ Hb]. fold this in Hb.
    unfold isServerURL, server_root. rewrite Hb, Hmd. unfold getRepoMetadata.
    cbn [RepoMetadata.owner RepoMetadata.repoName RepoMetadata.contextDir
         RepoMetadata.defaultBranch].
    split.
    + destruct (opt_truthy sp); prefix_tac.
    + destruct (opt_truthy sp); rewrite !prefix_cong_eq; reflexivity.
  - destruct (constructor_saas parse gs Hh) as [_ Hb]. fold this in Hb.
    unfold isServerURL, saas_root. rewrite Hb, Hmd. unfold getRepoMetadata.
    cbn [RepoMetadata.owner RepoMetadata.repoName RepoMetadata.contextDir
         RepoMetadata.defaultBranch].
    split.
    + destruct (opt_truthy sp); prefix_tac.
    + destruct (opt_truthy sp); rewrite !prefix_cong_eq; reflexivity.
Qed.

Lemma listing_helper_follows_its_flag_witness :
  String.prefix "https://git.example.com/rest/api/1.0/repositories/org/repo"
    (isServerURL Scenario.server_adapter false None) = true
  /\ String.prefix "https://api.bitbucket.org/2.0/projects/org/repos/repo"
       (isServerURL Scenario.saas_adapter true (Some "src")) = true.
Proof.
  split.
  - apply (proj1 (listing_helper_follows_its_flag Sample.parse
                    (Sample.gitsource_of "https://git.example.com/org/repo" None) None)).
    simpl. discriminate.
  - apply (proj2 (listing_helper_follows_its_flag Sample.parse
                    (Sample.gitsource_of "https://bitbucket.org/org/repo" (Some "main"))
                    (Some "src"))).
    reflexivity.
Defined.

(** ** The pod traffic indicator *)

Lemma concat_endpoints_app prev next :
  PodTraffic.concat_endpoints prev next
  = (prev ++ PodTraffic.concat_endpoints [] next)%list.
Proof.
  unfold PodTraffic.concat_endpoints.
  destruct next as [slice|]; [destruct (PodTraffic.endpoints slice)|]; reflexivity.
Qed.

Lemma fold_concat_endpoints slices acc :
  fold_left PodTraffic.concat_endpoints slices acc
  = (acc ++ flat_map (PodTraffic.concat_endpoints []) slices)%list.
Proof.
  revert acc. induction slices as [|next rest IH]; intros acc; simpl.
  - rewrite app_nil_r. reflexivity.
  - rewrite IH, concat_endpoints_app, <- app_assoc. reflexivity.
Qed.

Lemma targets_spec podName ep :
  PodTraffic.targets podName ep = true <->
  exists ref, ep = Some {| PodTraffic.targetRef := Some ref |}
              /\ PodTraffic.name ref = Some podName.
Proof.
  unfold PodTraffic.targets. split.
  - destruct ep as [[[ref|]]|]; simpl; try discriminate.
    destruct (PodTraffic.name ref) as [n|] eqn:Hn; [|discriminate].
    intros H. apply String.eqb_eq in H. subst n. exists ref. auto.
  - intros [ref [-> Hn]]. simpl. rewrite Hn. apply String.eqb_refl.
Qed.

Lemma found_find podName eps :
  PodTraffic.found (find (PodTraffic.targets podName) eps) = true <->
  exists ep, In ep eps /\ PodTraffic.targets podName ep = true.
Proof.
  split.
  - destruct (find (PodTraffic.targets podName) eps) as [ep|] eqn:Hf; [|discriminate].
    intros _. apply find_some in Hf. exists ep. exact Hf.
  - intros [ep [Hin Ht]].
    destruct (find (PodTraffic.targets podName) eps) as [[e|]|] eqn:Hf.
    + reflexivity.
    + apply find_some in Hf. destruct Hf as [_ Hf]. discriminate.
    + apply (find_none _ _ Hf) in Hin. congruence.
Qed.

Lemma found_all_endpoints podName slices :
  PodTraffic.found
    (find (PodTraffic.targets podName) (fold_left PodTraffic.concat_endpoints slices []))
  = true
  <-> PodTraffic.receives podName (Some slices).
Proof.
  rewrite found_find, fold_concat_endpoints. simpl. unfold PodTraffic.receives. split.
  - intros [ep [Hin Ht]]. apply in_flat_map in Hin. destruct Hin as [next [Hnext Hep]].
    apply targets_spec in Ht. destruct Ht as [ref [-> Hn]].
    unfold PodTraffic.concat_endpoints in Hep.
    destruct next as [slice|].
    + destruct (PodTraffic.endpoints slice) as [eps|] eqn:He.
      * exists slices, slice, eps, ref. simpl in Hep. auto.
      * simpl in Hep. destruct Hep as [Hep|[]]. discriminate Hep.
    + simpl in Hep. destruct Hep as [Hep|[]]. discriminate Hep.
  - intros [slices' [slice [eps [ref [Hd [Hs [He [Hin Hn]]]]]]]]. inversion Hd. subst slices'.
    exists (Some {| PodTraffic.targetRef := Some ref |}). split.
    + apply in_flat_map. exists (Some slice). split; [exact Hs|].
      unfold PodTraffic.concat_endpoints. rewrite He. exact Hin.
    + apply targets_spec. exists ref. auto.
Qed.

(** X13. Once the watch has loaded without error, the indicator shows the
    connected icon exactly when some endpoint slice lists an endpoint whose
    target is the pod, and the disconnected icon otherwise; slices without
    endpoints, missing slices, entries without a target and an absent list
    are passed over. *)
Theorem pod_traffic_icon :
  forall podName tooltipFlag data loadError,
    loadError = false ->
    let view := PodTraffic.GetPodTraffic podName tooltipFlag data true loadError in
    (PodTraffic.icon_of view = Some PodTraffic.ConnectedIcon
     <-> PodTraffic.receives podName data)
    /\
    (PodTraffic.icon_of view = Some PodTraffic.DisconnectedIcon
     <-> ~ PodTraffic.receives podName data).
Proof.
  intros podName tooltipFlag data loadError -> view. unfold view, PodTraffic.GetPodTraffic.
  cbv zeta. simpl.
  match goal with
  | |- context [PodTraffic.found ?x] => set (r := PodTraffic.found x)
  end.
  assert (Hrec : r = true <-> PodTraffic.receives podName data).
  { unfold r. destruct data as [slices|].
    - apply found_all_endpoints.
    - simpl. split; [discriminate|].
      intros [slices [slice [eps [ref [Hd _]]]]]. discriminate. }
  clearbody r.
  assert (Hneg : r = false <-> ~ PodTraffic.receives podName data).
  { rewrite <- Hrec. destruct r; split; intros H; congruence. }
  destruct tooltipFlag as [[|]|]; simpl; destruct r; simpl; split; split; intros H;
    try discriminate; try reflexivity;
    try (apply Hrec; reflexivity); try (apply Hneg; reflexivity);
    try (apply Hrec in H; discriminate); try (apply Hneg in H; discriminate).
Qed.

Lemma pod_traffic_icon_witness :
  PodTraffic.icon_of
    (PodTraffic.GetPodTraffic "web-1" None
       (Some [None;
              Some {| PodTraffic.endpoints := None |};
              Some {| PodTraffic.endpoints :=
                        Some [None;
                              Some {| PodTraffic.targetRef := None |};
                              Some {| PodTraffic.targetRef :=
                                        Some {| PodTraffic.name := Some "web-1" |} |}] |}])
       true false)
  = Some PodTraffic.ConnectedIcon.
Proof.
  apply (proj1 (pod_traffic_icon "web-1" None _ false eq_refl)).
  eexists _, _, _, {| PodTraffic.name := Some "web-1" |}.
  split; [reflexivity|]. split; [right; right; left; reflexivity|].
  split; [reflexivity|]. split; [right; right; left; reflexivity | reflexivity].
Defined.

(** X14. The indicator shows the loading placeholder exactly while the
    watch has not loaded and the error status exactly when it has loaded
    with an error; in every other case it shows an icon, never nothing.
    The tooltip appears only when asked for, and its text says
    [Receiving Traffic] exactly when the icon is the connected one. *)
Theorem pod_traffic_view :
  forall podName tooltipFlag data loaded loadError,
    let view := PodTraffic.GetPodTraffic podName tooltipFlag data loaded loadError in
    (view = PodTraffic.LoadingInline <-> loaded = false)
    /\ (view = PodTraffic.StatusError "public~Error" <-> loaded = true /\ loadError = true)
    /\ view <> PodTraffic.RendersFalse
    /\ (loaded = true -> loadError = false -> exists i, PodTraffic.icon_of view = Some i)
    /\ (forall content i, view = PodTraffic.TooltipView content i ->
          tooltipFlag = Some true
          /\ (content = "public~Receiving Traffic" <-> i = PodTraffic.ConnectedIcon)
          /\ (content = "public~Not Receiving Traffic" <-> i = PodTraffic.DisconnectedIcon))
    /\ (forall i, view = PodTraffic.IconView i -> tooltipFlag <> Some true).
Proof.
  intros podName tooltipFlag data loaded loadError view.
  unfold view, PodTraffic.GetPodTraffic. cbv zeta.
  destruct loaded, loadError; simpl;
    try (repeat split; intros; try discriminate; try congruence;
         try (destruct H; discriminate); fail).
  destruct (PodTraffic.found _); destruct tooltipFlag as [[|]|]; simpl;
    repeat split; intros; try discriminate; try congruence;
    try (destruct H; discriminate); try (eexists; reflexivity);
    try (inversion H; subst; reflexivity);
    try (inversion H; subst; discriminate);
    try (inversion H; subst; congruence).
Qed.

Lemma pod_traffic_view_witness :
  PodTraffic.GetPodTraffic "web-1" (Some true) None false false = PodTraffic.LoadingInline
  /\ PodTraffic.GetPodTraffic "web-1" (Some true) None true true
     = PodTraffic.StatusError "public~Error"
  /\ exists i, PodTraffic.icon_of (PodTraffic.GetPodTraffic "web-1" (Some true) None true false)
               = Some i.
Proof.
  split; [|split].
  - apply (proj1 (pod_traffic_view "web-1" (Some true) None false false)). reflexivity.
  - apply (proj1 (proj2 (pod_traffic_view "web-1" (Some true) None true true))).
    split; reflexivity.
  - apply (proj1 (proj2 (proj2 (proj2 (pod_traffic_view "web-1" (Some true) None true false)))));
      reflexivity.
Defined.

(** ** The codec round trip and the authorization token *)

Lemma digit_sextet_table :
  forallb (fun n => match Base64.sextet (Base64.digit n) with
                    | Some m => N.eqb m n
                    | None => false
                    end)
          (map N.of_nat (seq 0 64)) = true.
Proof. vm_compute. reflexivity. Qed.

Lemma digit_sextet n : (n < 64)%N -> Base64.sextet (Base64.digit n) = Some n.
Proof.
  intros Hn.
  assert (Hin : In n (map N.of_nat (seq 0 64))).
  { rewrite <- (N2Nat.id n). apply in_map. apply in_seq. lia. }
  pose proof (proj1 (forallb_forall _ _) digit_sextet_table n Hin) as H.
  simpl in H. destruct (Base64.sextet (Base64.digit n)) as [m|]; [|discriminate].
  apply N.eqb_eq in H. subst. reflexivity.
Qed.

Lemma sextets_emit n rest :
  (n < 64)%N -> Base64.sextets (Base64.emit n rest) = n :: Base64.sextets rest.
Proof. intros Hn. unfold Base64.emit. simpl. rewrite (digit_sextet n Hn). reflexivity. Qed.

Lemma list_ind3 {A} (P : list A -> Prop) :
  P [] -> (forall a, P [a]) -> (forall a b, P [a; b]) ->
  (forall a b c rest, P rest -> P (a :: b :: c :: rest)) ->
  forall l, P l.
Proof.
  intros H0 H1 H2 H3 l.
  assert (H : P l /\ (forall a, P (a :: l)) /\ (forall a b, P (a :: b :: l))).
  { induction l as [|x l [IH0 [IH1 IH2]]].
    - auto.
    - split; [apply IH1|]. split; [intros a; apply IH2|]. intros a b. apply H3. exact IH0. }
  apply H.
Qed.

Ltac sextet_bounds :=
  first [ apply N.mod_lt; lia | apply N.Div0.div_lt_upper_bound; lia ].

Lemma recombine u :
  ((u / 262144) * 262144 + ((u / 4096) mod 64) * 4096 + ((u / 64) mod 64) * 64 + u mod 64
   = u)%N.
Proof.
  replace (u / 4096)%N with (u / 64 / 64)%N by (rewrite N.Div0.div_div; reflexivity).
  replace (u / 262144)%N with (u / 64 / 64 / 64)%N by (rewrite !N.Div0.div_div; reflexivity).
  pose proof (N.div_mod' u 64). pose proof (N.div_mod' (u / 64) 64).
  pose proof (N.div_mod' (u / 64 / 64) 64). lia.
Qed.

Lemma recombine_2 u :
  (u mod 64 = 0)%N ->
  ((u / 262144) * 262144 + ((u / 4096) mod 64) * 4096 + ((u / 64) mod 64) * 64 = u)%N.
Proof. intros H. pose proof (recombine u) as R. rewrite H, N.add_0_r in R. exact R. Qed.

Lemma recombine_1 u :
  ((u / 64) mod 64 = 0)%N -> (u mod 64 = 0)%N ->
  ((u / 262144) * 262144 + ((u / 4096) mod 64) * 4096 = u)%N.
Proof.
  intros H1 H2. pose proof (recombine_2 u H2) as R.
  rewrite H1 in R. simpl in R. rewrite N.add_0_r in R. exact R.
Qed.

Lemma div_const u d q r : (r < d)%N -> (u = d * q + r)%N -> (u / d = q)%N.
Proof. intros Hr Hu. symmetry. apply (N.div_unique u d q r Hr Hu). Qed.

Lemma mod_const u d q r : (r < d)%N -> (u = d * q + r)%N -> (u mod d = r)%N.
Proof. intros Hr Hu. symmetry. apply (N.mod_unique u d q r Hr Hu). Qed.

Lemma bytes3 a b c :
  (a < 256)%N -> (b < 256)%N -> (c < 256)%N ->
  (((a * 65536 + b * 256 + c) / 65536) mod 256 = a)%N /\
  (((a * 65536 + b * 256 + c) / 256) mod 256 = b)%N /\
  ((a * 65536 + b * 256 + c) mod 256 = c)%N.
Proof.
  intros Ha Hb Hc. split; [|split].
  - rewrite (div_const _ 65536 a (b * 256 + c)) by lia. apply N.mod_small. exact Ha.
  - rewrite (div_const _ 256 (a * 256 + b) c) by lia.
    apply (mod_const _ 256 a b); lia.
  - apply (mod_const _ 256 (a * 256 + b) c); lia.
Qed.

Lemma low_bits_2 a b : ((a * 65536 + b * 256) mod 64 = 0)%N.
Proof. apply (mod_const _ 64 (a * 1024 + b * 4) 0); lia. Qed.

Lemma low_bits_1 a : ((a * 65536 / 64) mod 64 = 0)%N /\ ((a * 65536) mod 64 = 0)%N.
Proof.
  split.
  - rewrite (div_const _ 64 (a * 1024) 0) by lia. apply (mod_const _ 64 (a * 16) 0); lia.
  - apply (mod_const _ 64 (a * 1024) 0); lia.
Qed.

Lemma decode_encode_bytes l :
  Forall (fun a => (a < 256)%N) l ->
  Base64.decode_sextets (Base64.sextets (Base64.encode_bytes l))
  = string_of_list_ascii (map ascii_of_N l).
Proof.
  induction l as [| a | a b | a b c rest IH] using list_ind3; intros Hall.
  - reflexivity.
  - inversion Hall as [|? ? Ha _]; subst.
    unfold Base64.encode_bytes. cbv zeta.
    rewrite !sextets_emit by sextet_bounds.
    simpl Base64.sextets. unfold Base64.decode_sextets. cbv zeta.
    destruct (low_bits_1 a) as [L1 L2].
    rewrite (recombine_1 _ L1 L2).
    unfold Base64.byte. rewrite (div_const _ 65536 a 0) by lia.
    rewrite N.mod_small by exact Ha. reflexivity.
  - inversion Hall as [|? ? Ha Hall']; subst. inversion Hall' as [|? ? Hb _]; subst.
    unfold Base64.encode_bytes. cbv zeta.
    rewrite !sextets_emit by sextet_bounds.
    simpl Base64.sextets. unfold Base64.decode_sextets. cbv zeta.
    rewrite (recombine_2 _ (low_bits_2 a b)).
    unfold Base64.byte.
    replace (a * 65536 + b * 256)%N with (a * 65536 + b * 256 + 0)%N by lia.
    destruct (bytes3 a b 0 Ha Hb) as [B1 [B2 _]]; [lia|].
    rewrite B1, B2. reflexivity.
  - inversion Hall as [|? ? Ha Hall']; subst. inversion Hall' as [|? ? Hb Hall'']; subst.
    inversion Hall'' as [|? ? Hc Hrest]; subst.
    change (Base64.encode_bytes (a :: b :: c :: rest))
      with (let u := (a * 65536 + b * 256 + c)%N in
            Base64.emit (u / 262144)
              (Base64.emit ((u / 4096) mod 64)
                 (Base64.emit ((u / 64) mod 64)
                    (Base64.emit (u mod 64) (Base64.encode_bytes rest))))).
    cbv zeta.
    rewrite !sextets_emit by sextet_bounds.
    match goal with
    | |- Base64.decode_sextets (?s1 :: ?s2 :: ?s3 :: ?s4 :: ?r) = _ =>
        change (Base64.decode_sextets (s1 :: s2 :: s3 :: s4 :: r))
          with (let u := (s1 * 262144 + s2 * 4096 + s3 * 64 + s4)%N in
                String (Base64.byte (u / 65536))
                  (String (Base64.byte (u / 256))
                     (String (Base64.byte u) (Base64.decode_sextets r))))
    end.
    cbv zeta. rewrite (IH Hrest), recombine.
    unfold Base64.byte. destruct (bytes3 a b c Ha Hb Hc) as [B1 [B2 B3]].
    rewrite B1, B2, B3. reflexivity.
Qed.

Lemma raw_decode_encode s :
  Base64.decode_sextets (Base64.sextets (Base64.encode s)) = s.
Proof.
  unfold Base64.encode, Base64.bytes_of.
  rewrite decode_encode_bytes.
  - rewrite map_map. rewrite (map_ext _ (fun c => c)) by apply ascii_N_embedding.
    rewrite map_id. apply string_of_list_ascii_of_string.
  - apply Forall_map. apply Forall_forall. intros c _. apply N_ascii_bounded.
Qed.

Lemma utf8_replace_ascii l :
  Forall (fun b => (b < 128)%N) l -> Base64.utf8_replace l = l.
Proof.
  induction 1 as [|b rest Hb _ IH]; [reflexivity|].
  apply N.ltb_lt in Hb.
  simpl. rewrite Hb, IH. reflexivity.
Qed.

Lemma of_bytes_bytes_of s : Base64.of_bytes (Base64.bytes_of s) = s.
Proof.
  unfold Base64.of_bytes, Base64.bytes_of.
  rewrite map_map. rewrite (map_ext _ (fun c => c)) by apply ascii_N_embedding.
  rewrite map_id. apply string_of_list_ascii_of_string.
Qed.

Lemma decode_encode_ascii s : ascii_only s -> Base64.decode (Base64.encode s) = s.
Proof.
  intros Hs. unfold Base64.decode. rewrite raw_decode_encode.
  rewrite (utf8_replace_ascii _ Hs). apply of_bytes_bytes_of.
Qed.

Lemma bytes_of_app a b :
  Base64.bytes_of (a ++ b) = (Base64.bytes_of a ++ Base64.bytes_of b)%list.
Proof.
  unfold Base64.bytes_of. induction a as [|c a IH]; simpl; [reflexivity|].
  rewrite IH. reflexivity.
Qed.

Lemma ascii_only_app a b : ascii_only a -> ascii_only b -> ascii_only (a ++ b).
Proof.
  unfold ascii_only. intros Ha Hb. rewrite bytes_of_app. apply Forall_app. auto.
Qed.

(** X15. For credentials stored as the base64 form of a user name and a
    password made of ASCII characters, the header is
    [Authorization: Basic t] with [t] the base64 form of
    [<user>:<password>], and decoding [t] gives [<user>:<password>] back. *)
Theorem authorization_token_round_trip :
  forall this user pass,
    ascii_only user -> ascii_only pass ->
    GitSource.secretType (gitsource this) = Some BASIC_AUTH ->
    GitSource.secretContent (gitsource this)
    = Some {| username := Base64.encode user; password := Base64.encode pass |} ->
    getAuthProvider this
    = Return (Some [("Authorization", "Basic " ++ Base64.encode (user ++ ":" ++ pass))])
    /\ Base64.decode (Base64.encode (user ++ ":" ++ pass)) = user ++ ":" ++ pass.
Proof.
  intros this user pass Hu Hp Ht Hc. split.
  - unfold getAuthProvider. rewrite Ht, Hc. simpl.
    rewrite (decode_encode_ascii _ Hu), (decode_encode_ascii _ Hp). reflexivity.
  - apply decode_encode_ascii. apply ascii_only_app; [exact Hu|].
    apply ascii_only_app; [|exact Hp]. repeat constructor.
Qed.

Lemma authorization_token_round_trip_witness :
  getAuthProvider Scenario.basic_auth_adapter
  = Return (Some [("Authorization", "Basic " ++ Base64.encode ("user" ++ ":" ++ "pass"))])
  /\ Base64.decode (Base64.encode ("user" ++ ":" ++ "pass")) = "user" ++ ":" ++ "pass".
Proof.
  apply (authorization_token_round_trip Scenario.basic_auth_adapter "user" "pass").
  - unfold ascii_only. simpl. repeat constructor.
  - unfold ascii_only. simpl. repeat constructor.
  - reflexivity.
  - reflexivity.
Defined.

Example decode_replaces_ill_formed_bytes :
  Base64.encode (Base64.decode "/w==" ++ ":" ++ Base64.decode "cGFzcw==") = "77+9OnBhc3M=".
Proof. reflexivity. Qed.

Example decode_keeps_well_formed_utf8 :
  Base64.encode (Base64.decode "w6k=" ++ ":" ++ Base64.decode "4oKs") = "w6k64oKs".
Proof. reflexivity. Qed.

(** ** Topology, endpoint by endpoint *)

Lemma session_log this calls net tr :
  session this calls net tr
  = (match getAuthProvider this with
     | Return headers =>
         (tr ++ map (fun c => request_of (call_url this c) headers) calls)%list
     | Throw _ => tr
     end,
     Return tt).
Proof.
  revert tr. induction calls as [|c rest IH]; intros tr; simpl.
  - unfold ret. destruct (getAuthProvider this); [rewrite app_nil_r|]; reflexivity.
  - unfold bind. rewrite perform_step, fetchJson_log, IH.
    destruct (getAuthProvider this); [rewrite <- app_assoc|]; reflexivity.
Qed.

Lemma call_url_server this c :
  isServer this = true ->
  call_url this c = server_shape (baseURL this) (metadata this) c.
Proof.
  intros Hs.
  destruct c; unfold call_url, server_shape, repo_url, server_root, branches_url,
    raw_url, listing_url; cbv zeta; rewrite Hs; reflexivity.
Qed.

Lemma call_url_saas this c :
  isServer this = false ->
  call_url this c = saas_shape (baseURL this) (metadata this) c.
Proof.
  intros Hs.
  destruct c; unfold call_url, saas_shape, repo_url, saas_root, branches_url,
    raw_url, listing_url; cbv zeta; rewrite Hs; reflexivity.
Qed.

Lemma isServerURL_as_listing this (flag : bool) sp :
  isServerURL this flag sp
  = if flag
    then server_shape (baseURL this) (metadata this)
           (CallGetRepoFileList (Some {| specificPath := sp |}))
    else saas_shape (baseURL this) (metadata this)
           (CallGetRepoFileList (Some {| specificPath := sp |})).
Proof.
  unfold isServerURL, server_shape, saas_shape, requested_path. cbv zeta. simpl specificPath.
  destruct sp as [[|c r]|]; destruct flag; reflexivity.
Qed.

Lemma isServerURL_flag_prefix this (flag : bool) sp :
  String.prefix (baseURL this ++ (if flag then "/projects/" else "/repositories/"))
    (isServerURL this flag sp) = true.
Proof.
  unfold isServerURL. destruct flag; destruct (opt_truthy sp);
    apply prefix_cong; apply prefix_append.
Qed.

(** C1, as the code has it.  The mode of an adapter is settled by the
    constructor from the parsed host alone, and every operation runs on
    that same adapter value.  When the host is not [bitbucket.org] the
    adapter is in self-hosted mode, its base path is
    [https://<host>/rest/api/1.0], and the requests of every sequence of
    request-issuing operations are exactly the GETs of the self-hosted
    endpoint of each call on that base path; when the host is
    [bitbucket.org] they are the GETs of the SaaS endpoint of each call on
    [https://api.bitbucket.org/2.0].  The URL helper [isServerURL] builds
    the listing URL of the adapter's mode when it is given the adapter's
    own flag; in general it takes the base path from the adapter and the
    endpoint shape from the flag. *)
Theorem topology_fixed_by_host :
  forall (parse : string -> ParsedUrl.t) (gs : GitSource.t),
    let parsed := parse (GitSource.url gs) in
    let this := new_BitbucketService parse gs in
    let md := getRepoMetadata parse gs in
    let sent (shape : Call -> string) (calls : list Call) :=
      match getAuthProvider this with
      | Return headers => map (fun c => request_of (shape c) headers) calls
      | Throw _ => []
      end in
    (ParsedUrl.host parsed <> "bitbucket.org" ->
     let base := "https://" ++ ParsedUrl.host parsed ++ "/rest/api/1.0" in
     isServer this = true
     /\ baseURL this = base
     /\ (forall calls net,
           requests (session this calls) net = sent (server_shape base md) calls)
     /\ (forall sp,
           isServerURL this (isServer this) sp
           = server_shape base md (CallGetRepoFileList (Some {| specificPath := sp |})))
     /\ (forall (flag : bool) sp,
           String.prefix (base ++ (if flag then "/projects/" else "/repositories/"))
             (isServerURL this flag sp) = true))
    /\
    (ParsedUrl.host parsed = "bitbucket.org" ->
     let base := "https://api.bitbucket.org/2.0" in
     isServer this = false
     /\ baseURL this = base
     /\ (forall calls net,
           requests (session this calls) net = sent (saas_shape base md) calls)
     /\ (forall sp,
           isServerURL this (isServer this) sp
           = saas_shape base md (CallGetRepoFileList (Some {| specificPath := sp |})))
     /\ (forall (flag : bool) sp,
           String.prefix (base ++ (if flag then "/projects/" else "/repositories/"))
             (isServerURL this flag sp) = true)).
Proof.
  intros parse gs parsed this md sent.
  assert (Hmd : metadata this = md) by apply constructor_metadata.
  split; intros Hh base.
  - destruct (constructor_server parse gs Hh) as [Hs Hb]. fold this in Hs, Hb.
    change (baseURL this = base) in Hb.
    split; [exact Hs|]. split; [exact Hb|]. split; [|split].
    + intros calls net. unfold requests, sent. rewrite session_log. simpl.
      destruct (getAuthProvider this); [|reflexivity].
      apply map_ext. intros c. rewrite (call_url_server this c Hs), Hb, Hmd. reflexivity.
    + intros sp. rewrite isServerURL_as_listing, Hs, Hb, Hmd. reflexivity.
    + intros flag sp. rewrite <- Hb. apply isServerURL_flag_prefix.
  - destruct (constructor_saas parse gs Hh) as [Hs Hb]. fold this in Hs, Hb.
    change (baseURL this = base) in Hb.
    split; [exact Hs|]. split; [exact Hb|]. split; [|split].
    + intros calls net. unfold requests, sent. rewrite session_log. simpl.
      destruct (getAuthProvider this); [|reflexivity].
      apply map_ext. intros c. rewrite (call_url_saas this c Hs), Hb, Hmd. reflexivity.
    + intros sp. rewrite isServerURL_as_listing, Hs, Hb, Hmd. reflexivity.
    + intros flag sp. rewrite <- Hb. apply isServerURL_flag_prefix.
Qed.

Lemma topology_fixed_by_host_witness :
  (isServer Scenario.server_adapter = true
   /\ forall calls net,
        requests (session Scenario.server_adapter calls) net
        = map (fun c =>
                 request_of
                   (server_shape "https://git.example.com/rest/api/1.0"
                      (metadata Scenario.server_adapter) c) None)
              calls)
  /\
  (isServer Scenario.saas_adapter = false
   /\ forall calls net,
        requests (session Scenario.saas_adapter calls) net
        = map (fun c =>
                 request_of
                   (saas_shape "https://api.bitbucket.org/2.0"
                      (metadata Scenario.saas_adapter) c) None)
              calls).
Proof.
  split.
  - assert (Hh : ParsedUrl.host (Sample.parse "https://git.example.com/org/repo")
                 <> "bitbucket.org") by (simpl; discriminate).
    destruct (proj1 (topology_fixed_by_host Sample.parse
                       (Sample.gitsource_of "https://git.example.com/org/repo" None)) Hh)
      as [Hs [_ [Hreq _]]].
    split; [exact Hs | exact Hreq].
  - destruct (proj2 (topology_fixed_by_host Sample.parse
                       (Sample.gitsource_of "https://bitbucket.org/org/repo" (Some "main")))
                eq_refl)
      as [Hs [_ [Hreq _]]].
    split; [exact Hs | exact Hreq].
Defined.

Example self_hosted_requests :
  requests
    (session Scenario.server_adapter
       [CallGetRepoBranchList; CallIsFilePresent "/Dockerfile";
        CallGetRepoFileList (Some {| specificPath := Some "src" |})])
    (Sample.always NetworkError)
  = [request_of "https://git.example.com/rest/api/1.0/projects/org/repos/repo/branches" None;
     request_of "https://git.example.com/rest/api/1.0/projects/org/repos/repo/raw/Dockerfile?at=HEAD" None;
     request_of "https://git.example.com/rest/api/1.0/projects/org/repos/repo/files//src?limit=50&at=HEAD" None].
Proof. reflexivity. Qed.

(** C1 fails as stated: [isServerURL] is a public member that builds a
    URL, and on a self-hosted adapter it builds one of the SaaS shape when
    it is given the SaaS flag. *)
Lemma isServerURL_saas_flag_on_self_hosted :
  ParsedUrl.host (Sample.parse "https://git.example.com/org/repo") <> "bitbucket.org"
  /\ isServer Scenario.server_adapter = true
  /\ isServerURL Scenario.server_adapter false None
     = "https://git.example.com/rest/api/1.0/repositories/org/repo/src/HEAD/?pagelen=50"
  /\ String.prefix "https://git.example.com/rest/api/1.0/projects/org/repos/repo"
       (isServerURL Scenario.server_adapter false None) = false.
Proof.
  split; [simpl; discriminate|]. split; [reflexivity|]. split; reflexivity.
Qed.

(** ** The fetch primitive on bodies that are not JSON *)

(** C5 fails as stated: on a success response whose body is not JSON and
    whose content type is not exactly [text/plain], the fetch primitive
    returns neither the text nor a parsed body: it fails with the parse
    error. *)
Lemma fetchJson_unparsable_success :
  ok Scenario.dockerfile_bytes = true
  /\ run (fetchJson Scenario.saas_adapter "https://api.bitbucket.org/2.0/x")
         (Sample.always (Responded Scenario.dockerfile_bytes)) = Throw SyntaxError
  /\ ok Scenario.plain_text_with_charset = true
  /\ run (fetchJson Scenario.saas_adapter "https://api.bitbucket.org/2.0/x")
         (Sample.always (Responded Scenario.plain_text_with_charset)) = Throw SyntaxError.
Proof.
  split; [reflexivity|]. split; [reflexivity|]. split; reflexivity.
Qed.
